(** * The per-user state-tracking engine: rate limiter, conversation store
      and durable flag.

    Shallow embedding of three TypeScript services:
    - [AIControlService]            (anti-spam trackers, one per user id),
    - [ConversationHistoryService]  (bounded, time-boxed message log),
    - [PersistentStateService]      (one JSON file holding the on/off flag).

    Conventions of the embedding.
    - A JavaScript [Map<string, T>] is a [gmap string T].  The services keep
      references to the records stored in the map and mutate them in place;
      here every such mutation is an [insert] at the same key, and a path
      that mutates nothing returns the very same map.
    - Timestamps and counters are JavaScript numbers holding integers; they
      are [Z] here.  [Date.now()] is not a function of the state: every
      reading of the clock is an explicit argument, one argument per
      [Date.now()] call in the source.
    - An optional number tested with [!x] is falsy when it is [undefined]
      and also when it is [0]; [truthy] spells that out.
    - [console.log] and [console.error] touch no state of the services and
      are left out.
    - The flag file is modelled by its text: [JSON.stringify] is a printer
      and [JSON.parse] a lexer and a parser on strings; a file-system call
      that throws returns [None]. *)

From Stdlib Require Import ZArith Lia Ascii String.
From Stdlib Require Import Decimal DecimalFacts DecimalPos DecimalString.
From stdpp Require Import gmap strings list fin_maps.

Local Open Scope Z_scope.

(** ** AIControlService: the rate limiter *)

Module AIControlService.

Record MessageTracker := mkTracker {
  count : Z;
  firstMessageTime : Z;
  lastMessageTime : Z;
  blockedUntil : option Z
}.

Record SpamCheck := mkCheck {
  isSpam : bool;
  shouldWait : bool;
  waitTime : Z
}.

Definition SPAM_THRESHOLD : Z := 5.
Definition SPAM_TIME_WINDOW : Z := 60000.
Definition SPAM_BLOCK_DURATION : Z := 3600000.
Definition MESSAGE_COOLDOWN : Z := 3000.

(** [!!tracker.blockedUntil] *)
Definition truthy (o : option Z) : bool :=
  match o with
  | Some b => negb (b =? 0)
  | None => false
  end.

(** [Math.ceil(a / b)] for integers [a] and [b > 0]. *)
Definition ceil_div (a b : Z) : Z := - ((- a) / b).

(** The three result objects the source builds. *)
Definition blocked_result : SpamCheck := mkCheck true false 0.
Definition accepted_result : SpamCheck := mkCheck false false 0.
Definition wait_result (w : Z) : SpamCheck := mkCheck false true w.

(** [isUserBlocked(userId)], the clock read at [now].  An expired block
    is cleared on the stored tracker and its counter reset. *)
Definition isUserBlocked (now : Z) (userId : string)
    (trackers : gmap string MessageTracker)
    : bool * gmap string MessageTracker :=
  match trackers !! userId with
  | None => (false, trackers)
  | Some tracker =>
      if negb (truthy (blockedUntil tracker)) then (false, trackers)
      else
        match blockedUntil tracker with
        | None => (false, trackers)
        | Some until =>
            if now <? until then (true, trackers)
            else (false,
                  <[userId := mkTracker 0 (firstMessageTime tracker)
                                (lastMessageTime tracker) None]> trackers)
        end
  end.

(** [getBlockTimeRemaining(userId)], in minutes. *)
Definition getBlockTimeRemaining (now : Z) (userId : string)
    (trackers : gmap string MessageTracker) : Z :=
  match trackers !! userId with
  | None => 0
  | Some tracker =>
      if negb (truthy (blockedUntil tracker)) then 0
      else
        match blockedUntil tracker with
        | None => 0
        | Some until => ceil_div (until - now) 60000
        end
  end.

(** [checkAndTrackMessage(userId)].  [now] is the reading taken on entry,
    [nowB] the later reading taken inside [isUserBlocked].  The source
    fetches [tracker] before calling [isUserBlocked]; since that call
    mutates the same object, the fields read afterwards are those of the
    map it returns. *)
Definition checkAndTrackMessage (now nowB : Z) (userId : string)
    (trackers : gmap string MessageTracker)
    : SpamCheck * gmap string MessageTracker :=
  let '(blocked, trackers1) := isUserBlocked nowB userId trackers in
  if blocked then (blocked_result, trackers1)
  else
    match trackers1 !! userId with
    | None =>
        (accepted_result, <[userId := mkTracker 1 now now None]> trackers1)
    | Some tracker =>
        let timeSinceLastMessage := now - lastMessageTime tracker in
        if timeSinceLastMessage <? MESSAGE_COOLDOWN then
          (wait_result (MESSAGE_COOLDOWN - timeSinceLastMessage), trackers1)
        else
          let timeSinceFirst := now - firstMessageTime tracker in
          if timeSinceFirst >? SPAM_TIME_WINDOW then
            (accepted_result,
             <[userId := mkTracker 1 now now (blockedUntil tracker)]>
               trackers1)
          else
            let count' := count tracker + 1 in
            if count' >? SPAM_THRESHOLD then
              (blocked_result,
               <[userId := mkTracker count' (firstMessageTime tracker) now
                             (Some (now + SPAM_BLOCK_DURATION))]> trackers1)
            else
              (accepted_result,
               <[userId := mkTracker count' (firstMessageTime tracker) now
                             (blockedUntil tracker)]> trackers1)
    end.

(** [unblockUser(userId)] *)
Definition unblockUser (userId : string)
    (trackers : gmap string MessageTracker)
    : bool * gmap string MessageTracker :=
  match trackers !! userId with
  | None => (false, trackers)
  | Some tracker =>
      if truthy (blockedUntil tracker) then
        (true,
         <[userId := mkTracker 0 (firstMessageTime tracker)
                       (lastMessageTime tracker) None]> trackers)
      else (false, trackers)
  end.

(** The test of [cleanup()]: inactive for more than 24 hours and not
    (or no longer) blocked. *)
Definition stale (now : Z) (tracker : MessageTracker) : bool :=
  (now - lastMessageTime tracker >? 86400000)
  && (negb (truthy (blockedUntil tracker))
      || match blockedUntil tracker with
         | Some until => now >? until
         | None => false
         end).

(** [cleanup()]: every stale tracker is deleted. *)
Definition cleanup (now : Z) (trackers : gmap string MessageTracker)
    : gmap string MessageTracker :=
  filter (fun entry => stale now entry.2 = false) trackers.

(** One call on the service, with the clock readings it consumes. *)
Inductive Call :=
| CheckAndTrackMessage (now nowB : Z) (userId : string)
| IsUserBlocked (now : Z) (userId : string)
| UnblockUser (userId : string)
| Cleanup (now : Z).

Definition exec (trackers : gmap string MessageTracker) (c : Call)
    : gmap string MessageTracker :=
  match c with
  | CheckAndTrackMessage now nowB userId =>
      (checkAndTrackMessage now nowB userId trackers).2
  | IsUserBlocked now userId => (isUserBlocked now userId trackers).2
  | UnblockUser userId => (unblockUser userId trackers).2
  | Cleanup now => cleanup now trackers
  end.

(** The trackers after a sequence of calls on a fresh service. *)
Definition run (calls : list Call) : gmap string MessageTracker :=
  foldl exec ∅ calls.

(** [Date.now()] counts milliseconds since the epoch: readings are not
    negative. *)
Definition clock_ok (c : Call) : Prop :=
  match c with
  | CheckAndTrackMessage now nowB _ => 0 <= now /\ 0 <= nowB
  | IsUserBlocked now _ => 0 <= now
  | UnblockUser _ => True
  | Cleanup now => 0 <= now
  end.

(** A user sending one message at each of the given instants: the
    results in order, and the trackers at the end. *)
Fixpoint sendAll (times : list Z) (userId : string)
    (trackers : gmap string MessageTracker)
    : list SpamCheck * gmap string MessageTracker :=
  match times with
  | [] => ([], trackers)
  | now :: rest =>
      let '(r, trackers1) := checkAndTrackMessage now now userId trackers in
      let '(rs, trackers2) := sendAll rest userId trackers1 in
      (r :: rs, trackers2)
  end.

(** Six messages of one user, four seconds apart, the first at [t0]. *)
Definition sixMessages (userId : string) (t0 : Z) : list Call :=
  map (fun t => CheckAndTrackMessage t t userId)
    [t0; t0 + 4000; t0 + 8000; t0 + 12000; t0 + 16000; t0 + 20000].

(** The shape of every tracker a running service holds: the counter
    stays within one step of the threshold, the window start is not
    after the last accepted message, and a block, while recorded, ends
    [SPAM_BLOCK_DURATION] after the message that caused it. *)
Definition tracker_ok (t : MessageTracker) : Prop :=
  0 <= count t <= SPAM_THRESHOLD + 1
  /\ 0 <= firstMessageTime t <= lastMessageTime t
  /\ match blockedUntil t with
     | None => count t <= SPAM_THRESHOLD
     | Some until => until = lastMessageTime t + SPAM_BLOCK_DURATION
     end.

Definition trackers_ok (trackers : gmap string MessageTracker) : Prop :=
  forall userId t, trackers !! userId = Some t -> tracker_ok t.

(** Instants that follow [prev] and one another by more than the spam
    window. *)
Fixpoint spaced (prev : Z) (times : list Z) : Prop :=
  match times with
  | [] => True
  | now :: rest => SPAM_TIME_WINDOW < now - prev /\ spaced now rest
  end.

End AIControlService.
(** ** ConversationHistoryService: the conversation store *)

Module ConversationHistoryService.

Inductive Role := user | assistant | system.

Record Message := mkMessage {
  role : Role;
  content : string;
  timestamp : Z
}.

Record Conversation := mkConversation {
  userId : string;
  messages : list Message;
  lastUpdated : Z
}.

(** The [{role, content}] objects handed to the answer generator. *)
Record ApiMessage := mkApiMessage {
  api_role : Role;
  api_content : string
}.

Definition MAX_MESSAGES_PER_USER : nat := 10.
Definition CONVERSATION_TIMEOUT : Z := 1800000.

(** [xs.slice(-n)] for [n > 0]: the last [n] elements, all of them when
    there are fewer. *)
Definition slice_last {A} (n : nat) (xs : list A) : list A :=
  drop (length xs - n) xs.

(** [addUserMessage(userId, content)] *)
Definition addUserMessage (now : Z) (uid : string) (text : string)
    (conversations : gmap string Conversation)
    : gmap string Conversation :=
  let conversation :=
    match conversations !! uid with
    | Some c => c
    | None => mkConversation uid [] now
    end in
  let pushed := messages conversation ++ [mkMessage user text now] in
  let kept :=
    if Nat.ltb (MAX_MESSAGES_PER_USER * 2) (length pushed)
    then slice_last (MAX_MESSAGES_PER_USER * 2) pushed
    else pushed in
  <[uid := mkConversation (userId conversation) kept now]> conversations.

(** [addAssistantMessage(userId, content)]; [now] stamps the message and
    [now'] (a second reading) the record. *)
Definition addAssistantMessage (now now' : Z) (uid : string) (text : string)
    (conversations : gmap string Conversation)
    : gmap string Conversation :=
  match conversations !! uid with
  | None => conversations
  | Some conversation =>
      <[uid := mkConversation (userId conversation)
                 (messages conversation ++ [mkMessage assistant text now])
                 now']> conversations
  end.

Definition strip (msg : Message) : ApiMessage :=
  mkApiMessage (role msg) (content msg).

(** [getHistory(userId)] *)
Definition getHistory (now : Z) (uid : string)
    (conversations : gmap string Conversation)
    : list ApiMessage * gmap string Conversation :=
  match conversations !! uid with
  | None => ([], conversations)
  | Some conversation =>
      if now - lastUpdated conversation >? CONVERSATION_TIMEOUT then
        ([], delete uid conversations)
      else (map strip (messages conversation), conversations)
  end.

(** [getFullHistory(userId)] *)
Definition getFullHistory (uid : string)
    (conversations : gmap string Conversation) : list Message :=
  match conversations !! uid with
  | Some conversation => messages conversation
  | None => []
  end.

(** [clearHistory(userId)] *)
Definition clearHistory (uid : string)
    (conversations : gmap string Conversation)
    : bool * gmap string Conversation :=
  (bool_decide (is_Some (conversations !! uid)), delete uid conversations).

(** [cleanup()] *)
Definition cleanup (now : Z) (conversations : gmap string Conversation)
    : gmap string Conversation :=
  filter (fun entry =>
            (now - lastUpdated entry.2 >? CONVERSATION_TIMEOUT) = false)
         conversations.

Inductive Call :=
| AddUserMessage (now : Z) (uid text : string)
| AddAssistantMessage (now now' : Z) (uid text : string).

Definition exec (conversations : gmap string Conversation) (c : Call)
    : gmap string Conversation :=
  match c with
  | AddUserMessage now uid text => addUserMessage now uid text conversations
  | AddAssistantMessage now now' uid text =>
      addAssistantMessage now now' uid text conversations
  end.

Definition run (calls : list Call) : gmap string Conversation :=
  foldl exec ∅ calls.

(** What the dispatcher does for the [i]-th accepted message of a user:
    the question is stored, then the answer. *)
Definition exchange (uid : string) (i : nat) : list Call :=
  let t := 1700000000000 + 10000 * Z.of_nat i in
  [AddUserMessage t uid "question";
   AddAssistantMessage (t + 2000) (t + 2000) uid "answer"].

Definition exchanges (uid : string) (n : nat) : list Call :=
  flat_map (exchange uid) (seq 0 n).

(** [clearAllHistory()] *)
Definition clearAllHistory (conversations : gmap string Conversation)
    : gmap string Conversation := ∅.

(** [hasActiveConversation(userId)] *)
Definition hasActiveConversation (now : Z) (uid : string)
    (conversations : gmap string Conversation) : bool :=
  match conversations !! uid with
  | None => false
  | Some conversation => now - lastUpdated conversation <? CONVERSATION_TIMEOUT
  end.

(** [getLastMessage(userId)]; [None] stands for [null]. *)
Definition getLastMessage (uid : string)
    (conversations : gmap string Conversation) : option Message :=
  match conversations !! uid with
  | None => None
  | Some conversation =>
      if Nat.eqb (length (messages conversation)) 0 then None
      else messages conversation !! (length (messages conversation) - 1)%nat
  end.

(** The [isActive] flag that [getConversationSummary(userId)] prints as
    [Active] or [Expired]: whole seconds since the last update, against the
    timeout in seconds. *)
Definition summaryIsActive (now : Z) (conversation : Conversation) : bool :=
  let timeSinceUpdate := (now - lastUpdated conversation) / 1000 in
  timeSinceUpdate <? CONVERSATION_TIMEOUT / 1000.

(** [getConversationSummary(userId)] *)
Definition getConversationSummary (now : Z) (uid : string)
    (conversations : gmap string Conversation) : string :=
  match conversations !! uid with
  | None => "No conversation found"
  | Some conversation =>
      let timeSinceUpdate := (now - lastUpdated conversation) / 1000 in
      "User: " +:+ uid +:+ String "010" ""
      +:+ "Messages: "
      +:+ NilEmpty.string_of_uint
            (Nat.to_uint (length (messages conversation)))
      +:+ String "010" ""
      +:+ "Last Updated: "
      +:+ NilEmpty.string_of_int (Z.to_int timeSinceUpdate) +:+ "s ago"
      +:+ String "010" ""
      +:+ "Status: "
      +:+ (if summaryIsActive now conversation then "Active" else "Expired")
  end.

(** How many answers a run stored for [uid] after that user's last
    question (after the start of the run when there was no question). *)
Definition answersSinceQuestion (uid : string) (calls : list Call) : nat :=
  foldl (fun n c =>
           match c with
           | AddUserMessage _ u _ => if String.eqb u uid then O else n
           | AddAssistantMessage _ _ u _ => if String.eqb u uid then S n else n
           end) O calls.

End ConversationHistoryService.

(** ** JSON

    The durable flag is handed to [JSON.stringify(state, null, 2)] and
    read back with [JSON.parse].  Both are modelled on the text.  Strings
    are sequences of bytes (the file is UTF-8); a number keeps the digits
    of its literal. *)

Module JSON.

#[local] Unset Elimination Schemes.
Inductive Json :=
| JNull
| JBool (b : bool)
| JNumber (d : decimal)
| JString (s : string)
| JArray (elements : list Json)
| JObject (members : list (string * Json)).
#[local] Set Elimination Schemes.

(** [value[key]]: [None] stands for [undefined].  When the text of an
    object repeats a key, the last occurrence is the one that counts. *)
Fixpoint lookup_member (key : string) (members : list (string * Json))
    : option Json :=
  match members with
  | [] => None
  | (k, v) :: rest =>
      match lookup_member key rest with
      | Some v' => Some v'
      | None => if String.eqb k key then Some v else None
      end
  end.

Definition property (key : string) (value : Json) : option Json :=
  match value with
  | JObject members => lookup_member key members
  | _ => None
  end.

(** *** Reading: the tokens *)

Inductive Token :=
| TLBrace | TRBrace | TLBracket | TRBracket | TColon | TComma
| TScalar (v : Json).

Inductive Mode :=
| Idle
| InWord (seen : string)
| InNumber (seen : string)
| InString (seen : string)
| InEscape (seen : string)
| InUnicode (seen : string) (hex : list N).

Definition snoc (s : string) (c : ascii) : string := s +:+ String c "".

Definition is_ws (c : ascii) : bool :=
  match c with
  | " " | "009" | "010" | "013" => true
  | _ => false
  end%char.

Definition digit_of (c : ascii) : option (uint -> uint) :=
  match c with
  | "0" => Some D0 | "1" => Some D1 | "2" => Some D2 | "3" => Some D3
  | "4" => Some D4 | "5" => Some D5 | "6" => Some D6 | "7" => Some D7
  | "8" => Some D8 | "9" => Some D9
  | _ => None
  end%char.

Definition is_digit (c : ascii) : bool :=
  match digit_of c with Some _ => true | None => false end.

Definition is_lower (c : ascii) : bool :=
  let n := N_of_ascii c in ((97 <=? n) && (n <=? 122))%N.

Definition is_number_char (c : ascii) : bool :=
  is_digit c
  || match c with
     | "-" | "+" | "." | "e" | "E" => true
     | _ => false
     end%char.

Definition hex_of (c : ascii) : option N :=
  let n := N_of_ascii c in
  if ((48 <=? n) && (n <=? 57))%N then Some (n - 48)%N
  else if ((97 <=? n) && (n <=? 102))%N then Some (n - 87)%N
  else if ((65 <=? n) && (n <=? 70))%N then Some (n - 55)%N
  else None.

(** The UTF-8 bytes of the code unit [n < 65536] of a [\uXXXX] escape
    (the two halves of a surrogate pair are encoded one by one). *)
Definition utf8 (n : N) : string :=
  if (n <? 128)%N then String (ascii_of_N n) ""
  else if (n <? 2048)%N then
    String (ascii_of_N (192 + n / 64))
      (String (ascii_of_N (128 + n mod 64)) "")
  else
    String (ascii_of_N (224 + n / 4096))
      (String (ascii_of_N (128 + (n / 64) mod 64))
         (String (ascii_of_N (128 + n mod 64)) "")).

(** The longest run of digits at the head of [s], and what follows. *)
Fixpoint take_digits (s : string) : uint * string :=
  match s with
  | "" => (Nil, "")
  | String c rest =>
      match digit_of c with
      | Some d => let '(ds, rest') := take_digits rest in (d ds, rest')
      | None => (Nil, s)
      end
  end.

(** The integer part of a number: one digit at least, and no leading
    zero unless it is the only digit. *)
Definition integer_part_ok (d : uint) : bool :=
  match d with
  | Nil => false
  | D0 Nil => true
  | D0 _ => false
  | _ => true
  end.

Definition exponent_of (s : string) : option int :=
  let '(negative, s1) :=
    match s with
    | String "-" rest => (true, rest)
    | String "+" rest => (false, rest)
    | _ => (false, s)
    end in
  match take_digits s1 with
  | (Nil, _) => None
  | (e, "") => Some (if negative then Neg e else Pos e)
  | (_, String _ _) => None
  end.

(** A whole number literal: an optional minus sign; the integer part; an
    optional fraction, a dot and one digit at least; an optional
    exponent, [e] or [E], an optional sign and one digit at least. *)
Definition number_of_string (s : string) : option decimal :=
  let '(negative, s1) :=
    match s with
    | String "-" rest => (true, rest)
    | _ => (false, s)
    end in
  let '(ip, s2) := take_digits s1 in
  if negb (integer_part_ok ip) then None
  else
    let i := if negative then Neg ip else Pos ip in
    let fraction :=
      match s2 with
      | String "." rest =>
          match take_digits rest with
          | (Nil, _) => None
          | (f, s3) => Some (f, s3)
          end
      | _ => Some (Nil, s2)
      end in
    match fraction with
    | None => None
    | Some (f, "") => Some (Decimal i f)
    | Some (f, String c s4) =>
        if (Ascii.eqb c "e" || Ascii.eqb c "E")%char then
          match exponent_of s4 with
          | Some e => Some (DecimalExp i f e)
          | None => None
          end
        else None
    end.

Definition word_of_string (s : string) : option Json :=
  if String.eqb s "true" then Some (JBool true)
  else if String.eqb s "false" then Some (JBool false)
  else if String.eqb s "null" then Some JNull
  else None.

(** One character read while between tokens. *)
Definition step_idle (c : ascii) (toks : list Token)
    : option (Mode * list Token) :=
  if is_ws c then Some (Idle, toks)
  else
    match c with
    | "{" => Some (Idle, TLBrace :: toks)
    | "}" => Some (Idle, TRBrace :: toks)
    | "[" => Some (Idle, TLBracket :: toks)
    | "]" => Some (Idle, TRBracket :: toks)
    | ":" => Some (Idle, TColon :: toks)
    | "," => Some (Idle, TComma :: toks)
    | "034" => Some (InString "", toks)
    | "-" => Some (InNumber (String c ""), toks)
    | _ =>
        if is_digit c then Some (InNumber (String c ""), toks)
        else if is_lower c then Some (InWord (String c ""), toks)
        else None
    end%char.

(** One character read in any mode.  A word or a number ends at the
    first character that cannot continue it. *)
Definition step (mode : Mode) (c : ascii) (toks : list Token)
    : option (Mode * list Token) :=
  match mode with
  | Idle => step_idle c toks
  | InWord seen =>
      if is_lower c then Some (InWord (snoc seen c), toks)
      else
        match word_of_string seen with
        | Some v => step_idle c (TScalar v :: toks)
        | None => None
        end
  | InNumber seen =>
      if is_number_char c then Some (InNumber (snoc seen c), toks)
      else
        match number_of_string seen with
        | Some d => step_idle c (TScalar (JNumber d) :: toks)
        | None => None
        end
  | InString seen =>
      match c with
      | "034" => Some (Idle, TScalar (JString seen) :: toks)
      | "\" => Some (InEscape seen, toks)
      | _ =>
          if (N_of_ascii c <? 32)%N then None
          else Some (InString (snoc seen c), toks)
      end%char
  | InEscape seen =>
      match c with
      | "034" | "\" | "/" => Some (InString (snoc seen c), toks)
      | "b" => Some (InString (snoc seen "008"), toks)
      | "f" => Some (InString (snoc seen "012"), toks)
      | "n" => Some (InString (snoc seen "010"), toks)
      | "r" => Some (InString (snoc seen "013"), toks)
      | "t" => Some (InString (snoc seen "009"), toks)
      | "u" => Some (InUnicode seen [], toks)
      | _ => None
      end%char
  | InUnicode seen hex =>
      match hex_of c with
      | None => None
      | Some h =>
          match hex with
          | [h1; h2; h3] =>
              Some (InString
                      (seen +:+ utf8 (((h1 * 16 + h2) * 16 + h3) * 16 + h)%N),
                    toks)
          | _ => Some (InUnicode seen (hex ++ [h]), toks)
          end
      end
  end.

(** The end of the text. *)
Definition finish (mode : Mode) (toks : list Token) : option (list Token) :=
  match mode with
  | Idle => Some (rev toks)
  | InWord seen =>
      match word_of_string seen with
      | Some v => Some (rev (TScalar v :: toks))
      | None => None
      end
  | InNumber seen =>
      match number_of_string seen with
      | Some d => Some (rev (TScalar (JNumber d) :: toks))
      | None => None
      end
  | InString _ | InEscape _ | InUnicode _ _ => None
  end.

(** [toks] holds the tokens read so far, the latest first. *)
Fixpoint lex (s : string) (mode : Mode) (toks : list Token)
    : option (list Token) :=
  match s with
  | "" => finish mode toks
  | String c rest =>
      match step mode c toks with
      | Some (mode', toks') => lex rest mode' toks'
      | None => None
      end
  end.

(** *** Reading: the grammar

    The containers that are still open, innermost first; the elements
    and members read so far are kept latest first. *)

Inductive Frame :=
| FArray (elements : list Json)
| FObject (members : list (string * Json)) (key : option string).

Inductive Expect :=
| EValue          (* a value *)
| EFirstElement   (* after an opening bracket: a value or the closing one *)
| EKey            (* after a comma in an object: a key *)
| EFirstKey       (* after an opening brace: a key or the closing one *)
| EColon          (* after a key *)
| ENext           (* after a value in a container: a comma or the end *)
| EEnd (v : Json) (* the whole value is read: nothing more *).

(** A value is complete: it goes into the innermost open container. *)
Definition complete (v : Json) (stack : list Frame)
    : option (Expect * list Frame) :=
  match stack with
  | [] => Some (EEnd v, [])
  | FArray elements :: outer => Some (ENext, FArray (v :: elements) :: outer)
  | FObject members (Some key) :: outer =>
      Some (ENext, FObject ((key, v) :: members) None :: outer)
  | FObject _ None :: _ => None
  end.

Definition shift (e : Expect) (stack : list Frame) (t : Token)
    : option (Expect * list Frame) :=
  match e, t with
  | (EValue | EFirstElement), TScalar v => complete v stack
  | (EValue | EFirstElement), TLBracket =>
      Some (EFirstElement, FArray [] :: stack)
  | (EValue | EFirstElement), TLBrace =>
      Some (EFirstKey, FObject [] None :: stack)
  | EFirstElement, TRBracket =>
      match stack with
      | FArray [] :: outer => complete (JArray []) outer
      | _ => None
      end
  | (EKey | EFirstKey), TScalar (JString key) =>
      match stack with
      | FObject members None :: outer =>
          Some (EColon, FObject members (Some key) :: outer)
      | _ => None
      end
  | EFirstKey, TRBrace =>
      match stack with
      | FObject [] None :: outer => complete (JObject []) outer
      | _ => None
      end
  | EColon, TColon => Some (EValue, stack)
  | ENext, TComma =>
      match stack with
      | FArray _ :: _ => Some (EValue, stack)
      | FObject _ None :: _ => Some (EKey, stack)
      | _ => None
      end
  | ENext, TRBracket =>
      match stack with
      | FArray elements :: outer => complete (JArray (rev elements)) outer
      | _ => None
      end
  | ENext, TRBrace =>
      match stack with
      | FObject members None :: outer =>
          complete (JObject (rev members)) outer
      | _ => None
      end
  | _, _ => None
  end.

Fixpoint parse_tokens (toks : list Token) (e : Expect) (stack : list Frame)
    : option Json :=
  match toks with
  | [] => match e with EEnd v => Some v | _ => None end
  | t :: rest =>
      match shift e stack t with
      | Some (e', stack') => parse_tokens rest e' stack'
      | None => None
      end
  end.

(** [JSON.parse(text)]; [None] when it throws a [SyntaxError]. *)
Definition JSON_parse (text : string) : option Json :=
  match lex text Idle [] with
  | Some toks => parse_tokens toks EValue []
  | None => None
  end.

(** *** Writing *)

Definition hex_digit (n : N) : ascii :=
  ascii_of_N (if (n <? 10)%N then 48 + n else 87 + n).

Definition escape (c : ascii) : string :=
  match c with
  | "034"%char => String "\" (String "034" "")
  | "\"%char => "\\"
  | "008"%char => "\b"
  | "012"%char => "\f"
  | "010"%char => "\n"
  | "013"%char => "\r"
  | "009"%char => "\t"
  | _ =>
      let n := N_of_ascii c in
      if (n <? 32)%N then
        "\u00"
        +:+ String (hex_digit (n / 16)) (String (hex_digit (n mod 16)) "")
      else String c ""
  end.

Fixpoint escape_all (s : string) : string :=
  match s with
  | "" => ""
  | String c rest => escape c +:+ escape_all rest
  end.

Definition quote (s : string) : string :=
  String "034" (escape_all s +:+ String "034" "").

Definition string_of_decimal (d : decimal) : string :=
  let fraction f :=
    match f with
    | Nil => ""
    | _ => String "." (NilEmpty.string_of_uint f)
    end in
  match d with
  | Decimal i f => NilEmpty.string_of_int i +:+ fraction f
  | DecimalExp i f e =>
      NilEmpty.string_of_int i +:+ fraction f
      +:+ String "e" (NilEmpty.string_of_int e)
  end.

Fixpoint spaces (n : nat) : string :=
  match n with
  | O => ""
  | S n' => String " " (spaces n')
  end.

Definition newline (indent : nat) : string := String "010" (spaces indent).

(** [JSON.stringify(value, null, 2)] at nesting depth [indent / 2]. *)
Fixpoint stringify (indent : nat) (value : Json) : string :=
  match value with
  | JNull => "null"
  | JBool true => "true"
  | JBool false => "false"
  | JNumber d => string_of_decimal d
  | JString s => quote s
  | JArray [] => "[]"
  | JArray (first :: others) =>
      "[" +:+ newline (2 + indent) +:+ stringify (2 + indent) first
      +:+ (fix more (vs : list Json) : string :=
             match vs with
             | [] => ""
             | v :: vs' =>
                 "," +:+ newline (2 + indent) +:+ stringify (2 + indent) v
                 +:+ more vs'
             end) others
      +:+ newline indent +:+ "]"
  | JObject [] => "{}"
  | JObject ((key, first) :: others) =>
      "{" +:+ newline (2 + indent) +:+ quote key +:+ ": "
      +:+ stringify (2 + indent) first
      +:+ (fix more (ms : list (string * Json)) : string :=
             match ms with
             | [] => ""
             | (k, v) :: ms' =>
                 "," +:+ newline (2 + indent) +:+ quote k +:+ ": "
                 +:+ stringify (2 + indent) v +:+ more ms'
             end) others
      +:+ newline indent +:+ "}"
  end.

Definition JSON_stringify (value : Json) : string := stringify 0 value.

End JSON.

(** ** PersistentStateService: the durable flag *)

Module PersistentStateService.

Import JSON.

(** *** The file system

    What the service sees of it: whether the [data] directory exists,
    the text of [data/app-state.json] when that file exists, and whether
    the process may read and write there.  An operation that throws
    returns [None]. *)

Record Disk := mkDisk {
  canRead : bool;
  canWrite : bool;
  dirExists : bool;
  file : option string
}.

(** [fs.mkdirSync(dataDir, { recursive: true })] *)
Definition mkdirSync (disk : Disk) : option Disk :=
  if canWrite disk
  then Some (mkDisk (canRead disk) (canWrite disk) true (file disk))
  else None.

(** [fs.readFileSync(stateFilePath, "utf-8")] *)
Definition readFileSync (disk : Disk) : option string :=
  if canRead disk then file disk else None.

(** [fs.writeFileSync(stateFilePath, text, "utf-8")] *)
Definition writeFileSync (text : string) (disk : Disk) : option Disk :=
  if canWrite disk && dirExists disk
  then Some (mkDisk (canRead disk) (canWrite disk) (dirExists disk)
               (Some text))
  else None.

(** [if (!fs.existsSync(dataDir)) fs.mkdirSync(dataDir, ...)] *)
Definition ensureDir (disk : Disk) : option Disk :=
  if dirExists disk then Some disk else mkdirSync disk.

(** *** The service *)

Record AppState := mkAppState {
  aiEnabled : bool;
  lastUpdated : Z;
  updatedBy : option string
}.

(** The object behind an [AppState]; a property that is [undefined] is
    not written by [JSON.stringify] and reads as [undefined]. *)
Definition toJson (st : AppState) : Json :=
  JObject
    ([("aiEnabled", JBool (aiEnabled st));
      ("lastUpdated", JNumber (Decimal (Z.to_int (lastUpdated st)) Nil))]
     ++ match updatedBy st with
        | Some name => [("updatedBy", JString name)]
        | None => []
        end).

(** [DEFAULT_STATE], built when the service object is constructed, at
    [t0]. *)
Definition DEFAULT_STATE (t0 : Z) : AppState := mkAppState true t0 None.

(** [saveState(state)]: any error is caught and logged. *)
Definition saveState (state : Json) (disk : Disk) : Disk :=
  match ensureDir disk with
  | None => disk
  | Some disk1 =>
      match writeFileSync (JSON_stringify state) disk1 with
      | Some disk2 => disk2
      | None => disk1
      end
  end.

(** [loadState()].  The value returned is whatever [JSON.parse] produced
    (the cast to [AppState] checks nothing).  The [catch] block is
    reached when creating the directory or reading the file throws, when
    [JSON.parse] throws, and when the parsed value is [null] (reading
    [loadedState.aiEnabled] for the log line throws). *)
Definition loadState (t0 : Z) (disk : Disk) : Json * Disk :=
  match ensureDir disk with
  | None => (toJson (DEFAULT_STATE t0), disk)
  | Some disk1 =>
      match file disk1 with
      | Some _ =>
          match readFileSync disk1 with
          | None => (toJson (DEFAULT_STATE t0), disk1)
          | Some fileContent =>
              match JSON_parse fileContent with
              | None | Some JNull => (toJson (DEFAULT_STATE t0), disk1)
              | Some loadedState => (loadedState, disk1)
              end
          end
      | None =>
          (toJson (DEFAULT_STATE t0),
           saveState (toJson (DEFAULT_STATE t0)) disk1)
      end
  end.

(** [setAIStatus(enabled, updatedBy)]: the new in-memory state and the
    disk after the write was attempted. *)
Definition setAIStatus (enabled : bool) (by_ : option string) (now : Z)
    (disk : Disk) : Json * Disk :=
  let state := toJson (mkAppState enabled now by_) in
  (state, saveState state disk).

(** [getAIStatus()] on the in-memory state. *)
Definition getAIStatus (state : Json) : option Json :=
  property "aiEnabled" state.

(** [reset()], in a service whose default state was built at [t0]. *)
Definition reset (t0 : Z) (disk : Disk) : Json * Disk :=
  let state := toJson (DEFAULT_STATE t0) in
  (state, saveState state disk).

End PersistentStateService.

(** ** The message handler: the spam gate

    The part of the webhook handler that runs, without interruption,
    between the test of the on/off flag and the typing indicator: it asks
    the rate limiter and decides what the user is told. *)

Module Dispatcher.

Import AIControlService.

Inductive Verdict :=
| NoticeBlocked (remainingMinutes : Z)  (* "diam selama N menit ke depan" *)
| Ignored                               (* cooldown: nothing is sent *)
| NoticeFirstSpam                       (* "diam selama 1 jam ke depan" *)
| Respond.                              (* the question goes on *)

(** [now] and [nowB] are the two readings of [checkAndTrackMessage],
    [nowI] the one of [isUserBlocked] and [nowR] the one of
    [getBlockTimeRemaining]; [isUserBlocked] is called only when
    [spamCheck.isSpam] holds. *)
Definition spamGate (now nowB nowI nowR : Z) (userId : string)
    (trackers : gmap string MessageTracker)
    : Verdict * gmap string MessageTracker :=
  let '(spamCheck, trackers1) :=
    checkAndTrackMessage now nowB userId trackers in
  let '(blocked, trackers2) :=
    if isSpam spamCheck then isUserBlocked nowI userId trackers1
    else (false, trackers1) in
  if isSpam spamCheck && blocked then
    (NoticeBlocked (getBlockTimeRemaining nowR userId trackers2), trackers2)
  else if shouldWait spamCheck then (Ignored, trackers2)
  else if isSpam spamCheck then (NoticeFirstSpam, trackers2)
  else (Respond, trackers2).

End Dispatcher.

(** ** getRagBotResponseStream: the answer delivered in chunks *)

Module RagBot.





End RagBot.

(** * Properties of the rate limiter *)

Section RateLimiter.
Import AIControlService.

Ltac zcases :=
  repeat match goal with
  | |- context [Z.gtb ?a ?b] => rewrite (Z.gtb_ltb a b)
  | |- context [Z.ltb ?a ?b] => destruct (Z.ltb_spec a b); try lia
  | |- context [Z.eqb ?a ?b] => destruct (Z.eqb_spec a b); try lia
  end.

(** *** The paths through [isUserBlocked] and [checkAndTrackMessage],
        on an arbitrary map *)

Lemma isUserBlocked_absent now userId
    (trackers : gmap string MessageTracker) :
  trackers !! userId = None ->
  isUserBlocked now userId trackers = (false, trackers).
Proof. intros H. unfold isUserBlocked. by rewrite H. Qed.

Lemma isUserBlocked_unset now userId t
    (trackers : gmap string MessageTracker) :
  trackers !! userId = Some t -> truthy (blockedUntil t) = false ->
  isUserBlocked now userId trackers = (false, trackers).
Proof. intros H Hb. unfold isUserBlocked. by rewrite H, Hb. Qed.

Lemma isUserBlocked_active now userId t until
    (trackers : gmap string MessageTracker) :
  trackers !! userId = Some t -> blockedUntil t = Some until ->
  until <> 0 -> now < until ->
  isUserBlocked now userId trackers = (true, trackers).
Proof.
  intros H Hb Hnz Hlt. unfold isUserBlocked. rewrite H, Hb. cbn.
  by zcases.
Qed.

Lemma isUserBlocked_expired now userId t until
    (trackers : gmap string MessageTracker) :
  trackers !! userId = Some t -> blockedUntil t = Some until ->
  until <> 0 -> until <= now ->
  isUserBlocked now userId trackers
  = (false,
     <[userId := mkTracker 0 (firstMessageTime t) (lastMessageTime t) None]>
       trackers).
Proof.
  intros H Hb Hnz Hle. unfold isUserBlocked. rewrite H, Hb. cbn.
  by zcases.
Qed.

Lemma check_first now nowB userId (trackers : gmap string MessageTracker) :
  trackers !! userId = None ->
  checkAndTrackMessage now nowB userId trackers
  = (accepted_result, <[userId := mkTracker 1 now now None]> trackers).
Proof.
  intros H. unfold checkAndTrackMessage.
  rewrite (isUserBlocked_absent _ _ _ H). by rewrite H.
Qed.

Lemma check_blocked now nowB userId t until
    (trackers : gmap string MessageTracker) :
  trackers !! userId = Some t -> blockedUntil t = Some until ->
  until <> 0 -> nowB < until ->
  checkAndTrackMessage now nowB userId trackers = (blocked_result, trackers).
Proof.
  intros H Hb Hnz Hlt. unfold checkAndTrackMessage.
  by rewrite (isUserBlocked_active _ _ _ _ _ H Hb Hnz Hlt).
Qed.

Lemma check_cooldown now nowB userId t
    (trackers : gmap string MessageTracker) :
  trackers !! userId = Some t -> truthy (blockedUntil t) = false ->
  now - lastMessageTime t < MESSAGE_COOLDOWN ->
  checkAndTrackMessage now nowB userId trackers
  = (wait_result (MESSAGE_COOLDOWN - (now - lastMessageTime t)), trackers).
Proof.
  intros H Hb Hgap. unfold checkAndTrackMessage.
  rewrite (isUserBlocked_unset _ _ _ _ H Hb), H. cbn.
  by zcases.
Qed.

Lemma check_new_window now nowB userId t
    (trackers : gmap string MessageTracker) :
  trackers !! userId = Some t -> truthy (blockedUntil t) = false ->
  MESSAGE_COOLDOWN <= now - lastMessageTime t ->
  SPAM_TIME_WINDOW < now - firstMessageTime t ->
  checkAndTrackMessage now nowB userId trackers
  = (accepted_result,
     <[userId := mkTracker 1 now now (blockedUntil t)]> trackers).
Proof.
  intros H Hb Hgap Hwin. unfold checkAndTrackMessage.
  rewrite (isUserBlocked_unset _ _ _ _ H Hb), H. cbn.
  by zcases.
Qed.

Lemma check_counted now nowB userId t
    (trackers : gmap string MessageTracker) :
  trackers !! userId = Some t -> truthy (blockedUntil t) = false ->
  MESSAGE_COOLDOWN <= now - lastMessageTime t ->
  now - firstMessageTime t <= SPAM_TIME_WINDOW ->
  count t + 1 <= SPAM_THRESHOLD ->
  checkAndTrackMessage now nowB userId trackers
  = (accepted_result,
     <[userId := mkTracker (count t + 1) (firstMessageTime t) now
                   (blockedUntil t)]> trackers).
Proof.
  intros H Hb Hgap Hwin Hc. unfold checkAndTrackMessage.
  rewrite (isUserBlocked_unset _ _ _ _ H Hb), H. cbn.
  by zcases.
Qed.

Lemma check_over_threshold now nowB userId t
    (trackers : gmap string MessageTracker) :
  trackers !! userId = Some t -> truthy (blockedUntil t) = false ->
  MESSAGE_COOLDOWN <= now - lastMessageTime t ->
  now - firstMessageTime t <= SPAM_TIME_WINDOW ->
  SPAM_THRESHOLD < count t + 1 ->
  checkAndTrackMessage now nowB userId trackers
  = (blocked_result,
     <[userId := mkTracker (count t + 1) (firstMessageTime t) now
                   (Some (now + SPAM_BLOCK_DURATION))]> trackers).
Proof.
  intros H Hb Hgap Hwin Hc. unfold checkAndTrackMessage.
  rewrite (isUserBlocked_unset _ _ _ _ H Hb), H. cbn.
  by zcases.
Qed.

(** *** The invariant of the running service *)

Ltac constants :=
  unfold SPAM_THRESHOLD, SPAM_TIME_WINDOW, SPAM_BLOCK_DURATION,
    MESSAGE_COOLDOWN in *.

Lemma trackers_ok_empty : trackers_ok ∅.
Proof. intros u t H. by rewrite lookup_empty in H. Qed.

Lemma trackers_ok_insert userId t (trackers : gmap string MessageTracker) :
  trackers_ok trackers -> tracker_ok t ->
  trackers_ok (<[userId := t]> trackers).
Proof.
  intros Hm Ht u t' H. rewrite lookup_insert in H.
  case_decide; simplify_eq; eauto.
Qed.

Lemma tracker_ok_truthy t :
  tracker_ok t -> truthy (blockedUntil t) = false -> blockedUntil t = None.
Proof.
  intros (_ & Hf & Hb). unfold truthy. destruct (blockedUntil t); [|done].
  constants. destruct (Z.eqb_spec z 0); [lia|done].
Qed.

Lemma isUserBlocked_ok now userId (trackers : gmap string MessageTracker) :
  trackers_ok trackers -> trackers_ok (isUserBlocked now userId trackers).2.
Proof.
  intros Hm. unfold isUserBlocked.
  destruct (trackers !! userId) as [t|] eqn:E; [|done].
  destruct (negb _); [done|].
  destruct (blockedUntil t) as [until|] eqn:Eb; [|done].
  destruct (now <? until); [done|]. cbn.
  apply trackers_ok_insert; [done|].
  destruct (Hm _ _ E) as (Hc & Hf & _).
  repeat split; cbn; constants; lia.
Qed.

(** After [isUserBlocked] has answered [false], the tracker of that user
    carries no block. *)
Lemma isUserBlocked_false_unset now userId t
    (trackers : gmap string MessageTracker) :
  trackers_ok trackers ->
  (isUserBlocked now userId trackers).1 = false ->
  (isUserBlocked now userId trackers).2 !! userId = Some t ->
  blockedUntil t = None.
Proof.
  intros Hm. unfold isUserBlocked.
  destruct (trackers !! userId) as [t0|] eqn:E; [|cbn; congruence].
  destruct (negb _) eqn:Et.
  - cbn. intros _ H. rewrite E in H. simplify_eq.
    apply tracker_ok_truthy; eauto. by destruct (truthy _).
  - destruct (blockedUntil t0) as [until|] eqn:Eb.
    + destruct (now <? until); [done|]. cbn. rewrite lookup_insert_eq.
      intros _ H. by simplify_eq.
    + cbn. intros _ H. rewrite E in H. by simplify_eq.
Qed.

Lemma checkAndTrackMessage_ok now nowB userId
    (trackers : gmap string MessageTracker) :
  0 <= now -> trackers_ok trackers ->
  trackers_ok (checkAndTrackMessage now nowB userId trackers).2.
Proof.
  intros Hnow Hm. unfold checkAndTrackMessage.
  pose proof (isUserBlocked_ok nowB userId trackers Hm) as Hm1.
  pose proof (isUserBlocked_false_unset nowB userId) as Hun.
  specialize (fun t => Hun t trackers Hm).
  destruct (isUserBlocked nowB userId trackers) as [blocked trackers1].
  cbn in Hm1, Hun. destruct blocked; [done|].
  destruct (trackers1 !! userId) as [t|] eqn:E.
  - specialize (Hun t eq_refl eq_refl).
    destruct (Hm1 _ _ E) as (Hc & Hf & Hb). rewrite Hun in Hb |- *.
    cbn zeta. destruct (_ <? MESSAGE_COOLDOWN) eqn:Hgap; [done|].
    apply Z.ltb_ge in Hgap.
    destruct (_ >? SPAM_TIME_WINDOW); [|destruct (_ >? SPAM_THRESHOLD) eqn:Hth;
        [|rewrite Z.gtb_ltb in Hth; apply Z.ltb_ge in Hth]];
      cbn; (apply trackers_ok_insert; [done|]);
      repeat split; cbn; constants; lia.
  - cbn. apply trackers_ok_insert; [done|].
    repeat split; cbn; constants; lia.
Qed.

Lemma unblockUser_ok userId (trackers : gmap string MessageTracker) :
  trackers_ok trackers -> trackers_ok (unblockUser userId trackers).2.
Proof.
  intros Hm. unfold unblockUser.
  destruct (trackers !! userId) as [t|] eqn:E; [|done].
  destruct (truthy _); [|done]. cbn.
  apply trackers_ok_insert; [done|].
  destruct (Hm _ _ E) as (Hc & Hf & _).
  repeat split; cbn; constants; lia.
Qed.

Lemma cleanup_ok now (trackers : gmap string MessageTracker) :
  trackers_ok trackers -> trackers_ok (cleanup now trackers).
Proof.
  intros Hm u t H. unfold cleanup in H.
  apply map_lookup_filter_Some in H as [H _]. eauto.
Qed.

Lemma exec_ok c (trackers : gmap string MessageTracker) :
  clock_ok c -> trackers_ok trackers -> trackers_ok (exec trackers c).
Proof.
  destruct c; cbn; intros Hc Hm.
  - apply checkAndTrackMessage_ok; [lia|done].
  - by apply isUserBlocked_ok.
  - by apply unblockUser_ok.
  - by apply cleanup_ok.
Qed.

Lemma run_ok calls : Forall clock_ok calls -> trackers_ok (run calls).
Proof.
  unfold run. induction calls as [|c calls IH] using rev_ind; [intros _|].
  - apply trackers_ok_empty.
  - intros [Hcs Hc]%Forall_app. rewrite foldl_app. cbn.
    apply exec_ok; [by inversion Hc|auto].
Qed.

(** *** Counting, cooldown and blocking *)

(** An expired block is cleared first; the call then proceeds as on the
    reset tracker. *)
Lemma check_after_expiry now nowB userId t until
    (trackers : gmap string MessageTracker) :
  trackers !! userId = Some t -> blockedUntil t = Some until ->
  until <> 0 -> until <= nowB ->
  checkAndTrackMessage now nowB userId trackers
  = checkAndTrackMessage now nowB userId
      (<[userId := mkTracker 0 (firstMessageTime t) (lastMessageTime t) None]>
         trackers).
Proof.
  intros H Hb Hnz Hle. unfold checkAndTrackMessage at 1 2.
  rewrite (isUserBlocked_expired _ _ _ _ _ H Hb Hnz Hle).
  by erewrite (isUserBlocked_unset nowB userId _ (<[userId:=_]> trackers))
    by (by rewrite ?lookup_insert_eq).
Qed.

(** C2: threshold 5, window 60000 ms, cooldown 3000 ms, block 3600000 ms.
    A user without a tracker sends six messages four seconds apart, the
    first at [t0]: the first five are accepted, the sixth is reported as
    spam and records a block until one hour after it.  A seventh call
    whose blocked test reads the clock before that instant (in particular
    immediately after the sixth, inside the cooldown) answers
    [{isSpam: true, shouldWait: false, waitTime: 0}] and leaves the
    trackers as they were. *)
Theorem six_messages_then_blocked userId t0 t7 t7b
    (trackers : gmap string MessageTracker) :
  trackers !! userId = None ->
  0 <= t0 ->
  t7b < t0 + 20000 + 3600000 ->
  let blocked :=
    <[userId := mkTracker 6 t0 (t0 + 20000) (Some (t0 + 20000 + 3600000))]>
      trackers in
  sendAll [t0; t0 + 4000; t0 + 8000; t0 + 12000; t0 + 16000; t0 + 20000]
    userId trackers
  = ([mkCheck false false 0; mkCheck false false 0; mkCheck false false 0;
      mkCheck false false 0; mkCheck false false 0; mkCheck true false 0],
     blocked)
  /\ checkAndTrackMessage t7 t7b userId blocked
     = (mkCheck true false 0, blocked).
Proof.
  intros Hnone Ht0 Ht7. split.
  - unfold sendAll. rewrite (check_first _ _ _ _ Hnone).
    do 4 (erewrite check_counted;
          [|apply lookup_insert_eq|done|cbn; constants; lia..];
          cbn [count firstMessageTime lastMessageTime blockedUntil];
          rewrite insert_insert_eq).
    erewrite check_over_threshold;
      [|apply lookup_insert_eq|done|cbn; constants; lia..].
    cbn [count firstMessageTime lastMessageTime blockedUntil].
    rewrite insert_insert_eq. constants. cbn. done.
  - eapply check_blocked; [apply lookup_insert_eq|done|lia..].
Qed.

Lemma six_messages_then_blocked_witness :
  (∅ : gmap string MessageTracker) !! "628111" = None
  /\ 0 <= 1700000000000
  /\ 1700000020000 < 1700000000000 + 20000 + 3600000
  /\ (sendAll [1700000000000; 1700000004000; 1700000008000; 1700000012000;
               1700000016000; 1700000020000] "628111" ∅).1
     = [mkCheck false false 0; mkCheck false false 0; mkCheck false false 0;
        mkCheck false false 0; mkCheck false false 0; mkCheck true false 0].
Proof.
  assert (H0 : (∅ : gmap string MessageTracker) !! "628111" = None)
    by reflexivity.
  assert (H1 : 0 <= 1700000000000) by lia.
  assert (H2 : 1700000020000 < 1700000000000 + 20000 + 3600000) by lia.
  split; [exact H0|]. split; [exact H1|]. split; [exact H2|].
  destruct (six_messages_then_blocked "628111" 1700000000000
              1700000020000 1700000020000 ∅ H0 H1 H2) as [Hsend _].
  exact (f_equal fst Hsend).
Defined.

(** C3: on a running service, a user whose tracker exists and whom
    [isUserBlocked] does not report as blocked sends a message less than
    [MESSAGE_COOLDOWN] after the last accepted one: the answer is
    [{isSpam: false, shouldWait: true, waitTime: cooldown - gap}] and the
    trackers, that user's [count], [firstMessageTime], [lastMessageTime]
    and [blockedUntil] included, are left as they were. *)
Theorem cooldown_message_not_counted calls userId t now :
  Forall clock_ok calls ->
  run calls !! userId = Some t ->
  (isUserBlocked now userId (run calls)).1 = false ->
  now - lastMessageTime t < MESSAGE_COOLDOWN ->
  checkAndTrackMessage now now userId (run calls)
  = (mkCheck false true (MESSAGE_COOLDOWN - (now - lastMessageTime t)),
     run calls)
  /\ (checkAndTrackMessage now now userId (run calls)).2 !! userId = Some t.
Proof.
  intros Hclock Ht Hfree Hgap.
  pose proof (run_ok calls Hclock _ _ Ht) as (Hc & Hf & Hb).
  assert (Hunset : truthy (blockedUntil t) = false).
  { destruct (blockedUntil t) as [until|] eqn:Eb; [|done].
    exfalso. revert Hfree. unfold isUserBlocked. rewrite Ht, Eb. cbn.
    constants. zcases; cbn; congruence. }
  rewrite (check_cooldown _ _ _ _ _ Ht Hunset Hgap). by split.
Qed.

Lemma cooldown_message_not_counted_witness :
  let t := mkTracker 1 1700000000000 1700000000000 None in
  let calls := [CheckAndTrackMessage 1700000000000 1700000000000 "628111"] in
  Forall clock_ok calls
  /\ run calls !! "628111" = Some t
  /\ (isUserBlocked 1700000001000 "628111" (run calls)).1 = false
  /\ 1700000001000 - lastMessageTime t < MESSAGE_COOLDOWN
  /\ (checkAndTrackMessage 1700000001000 1700000001000 "628111"
        (run calls)).1
     = mkCheck false true 2000.
Proof.
  intros t calls.
  assert (H0 : Forall clock_ok calls) by (repeat constructor; cbn; lia).
  assert (H1 : run calls !! "628111" = Some t) by reflexivity.
  assert (H2 : (isUserBlocked 1700000001000 "628111" (run calls)).1 = false)
    by reflexivity.
  assert (H3 : 1700000001000 - lastMessageTime t < MESSAGE_COOLDOWN)
    by (cbn; constants; lia).
  split; [exact H0|]. split; [exact H1|]. split; [exact H2|].
  split; [exact H3|].
  destruct (cooldown_message_not_counted calls "628111" t 1700000001000
              H0 H1 H2 H3) as [Hcheck _].
  exact (f_equal fst Hcheck).
Defined.

(** C4: on a running service, a user whose tracker records a block that
    has elapsed (both clock readings of the call are at or after
    [blockedUntil]) sends a message: it is accepted, and the tracker is
    left with no block, [count = 1] and a window that starts at [now]. *)
Theorem expired_block_starts_fresh_window calls userId t until now nowB :
  Forall clock_ok calls ->
  run calls !! userId = Some t ->
  blockedUntil t = Some until ->
  until <= now -> until <= nowB ->
  checkAndTrackMessage now nowB userId (run calls)
  = (mkCheck false false 0,
     <[userId := mkTracker 1 now now None]> (run calls)).
Proof.
  intros Hclock Ht Eb Hnow HnowB.
  pose proof (run_ok calls Hclock _ _ Ht) as (Hc & Hf & Hb).
  rewrite Eb in Hb. constants.
  rewrite (check_after_expiry _ _ _ _ _ _ Ht Eb) by lia.
  erewrite check_new_window;
    [|apply lookup_insert_eq|done|cbn; constants; lia..].
  cbn. by rewrite insert_insert_eq.
Qed.

Lemma expired_block_starts_fresh_window_witness :
  let calls := sixMessages "628111" 1700000000000 in
  let t := mkTracker 6 1700000000000 1700000020000 (Some 1700003620000) in
  Forall clock_ok calls
  /\ run calls !! "628111" = Some t
  /\ blockedUntil t = Some 1700003620000
  /\ 1700003620000 <= 1700003620000
  /\ (checkAndTrackMessage 1700003620000 1700003620000 "628111"
        (run calls)).2 !! "628111"
     = Some (mkTracker 1 1700003620000 1700003620000 None).
Proof.
  intros calls t.
  assert (H0 : Forall clock_ok calls) by (repeat constructor; cbn; lia).
  assert (H1 : run calls !! "628111" = Some t) by reflexivity.
  assert (H2 : blockedUntil t = Some 1700003620000) by reflexivity.
  assert (H3 : 1700003620000 <= 1700003620000) by lia.
  split; [exact H0|]. split; [exact H1|]. split; [exact H2|].
  split; [exact H3|].
  rewrite (expired_block_starts_fresh_window calls "628111" t 1700003620000
             1700003620000 1700003620000 H0 H1 H2 H3 H3).
  apply lookup_insert_eq.
Defined.

(** C10: on a running service no tracker ever counts more than
    [SPAM_THRESHOLD + 1] messages, whatever sequence of
    [checkAndTrackMessage], [isUserBlocked], [unblockUser] and [cleanup]
    calls led there; and a counter above the threshold comes with a
    recorded block. *)
Theorem count_at_most_threshold_plus_one calls userId t :
  Forall clock_ok calls ->
  run calls !! userId = Some t ->
  count t <= SPAM_THRESHOLD + 1
  /\ (SPAM_THRESHOLD < count t -> is_Some (blockedUntil t)).
Proof.
  intros Hclock Ht.
  destruct (run_ok calls Hclock _ _ Ht) as ([_ Hc] & _ & Hb).
  split; [done|]. intros Hover.
  destruct (blockedUntil t); [by eexists|lia].
Qed.

Lemma count_at_most_threshold_plus_one_witness :
  let calls := sixMessages "628111" 1700000000000 in
  let t := mkTracker 6 1700000000000 1700000020000 (Some 1700003620000) in
  Forall clock_ok calls
  /\ run calls !! "628111" = Some t
  /\ count t <= SPAM_THRESHOLD + 1.
Proof.
  intros calls t.
  assert (H0 : Forall clock_ok calls) by (repeat constructor; cbn; lia).
  assert (H1 : run calls !! "628111" = Some t) by reflexivity.
  split; [exact H0|]. split; [exact H1|].
  exact (proj1 (count_at_most_threshold_plus_one calls "628111" t H0 H1)).
Defined.

(** The bound depends on the clock counting from the epoch: were a sixth
    message read at -3600000, its block would end at [0], which [!x]
    takes for no block, and a seventh message would be counted. *)
Lemma count_seven_before_epoch :
  run (sixMessages "628111" (-3620000)
       ++ [CheckAndTrackMessage (-3596000) (-3596000) "628111"])
  !! "628111"
  = Some (mkTracker 7 (-3620000) (-3596000) (Some 4000)).
Proof. reflexivity. Qed.

(** *** Remaining block time *)

(** [ceil_div a b] is the least integer [q] with [a <= q * b]. *)
Lemma ceil_div_spec a b :
  0 < b -> a <= ceil_div a b * b /\ (ceil_div a b - 1) * b < a.
Proof.
  intros Hb. unfold ceil_div.
  pose proof (Z.div_mod (- a) b ltac:(lia)).
  pose proof (Z.mod_pos_bound (- a) b Hb). nia.
Qed.

Lemma getBlockTimeRemaining_untracked now userId
    (trackers : gmap string MessageTracker) :
  trackers !! userId = None ->
  getBlockTimeRemaining now userId trackers = 0.
Proof. intros H. unfold getBlockTimeRemaining. by rewrite H. Qed.

Lemma getBlockTimeRemaining_unset now userId t
    (trackers : gmap string MessageTracker) :
  trackers !! userId = Some t -> truthy (blockedUntil t) = false ->
  getBlockTimeRemaining now userId trackers = 0.
Proof. intros H Hb. unfold getBlockTimeRemaining. by rewrite H, Hb. Qed.

Lemma getBlockTimeRemaining_set now userId t until
    (trackers : gmap string MessageTracker) :
  trackers !! userId = Some t -> blockedUntil t = Some until -> until <> 0 ->
  getBlockTimeRemaining now userId trackers = ceil_div (until - now) 60000.
Proof.
  intros H Hb Hnz. unfold getBlockTimeRemaining. rewrite H, Hb. cbn.
  by zcases.
Qed.

(** While the block lasts, at least one minute is reported. *)
Lemma getBlockTimeRemaining_blocked now userId t until
    (trackers : gmap string MessageTracker) :
  trackers !! userId = Some t -> blockedUntil t = Some until -> until <> 0 ->
  now < until ->
  1 <= getBlockTimeRemaining now userId trackers.
Proof.
  intros H Hb Hnz Hlt. rewrite (getBlockTimeRemaining_set _ _ _ _ _ H Hb Hnz).
  pose proof (ceil_div_spec (until - now) 60000 ltac:(lia)). lia.
Qed.

(** A block that ended a minute ago or more, and that no call has
    cleared yet, is reported as a negative number of minutes. *)
Lemma getBlockTimeRemaining_elapsed now userId t until
    (trackers : gmap string MessageTracker) :
  trackers !! userId = Some t -> blockedUntil t = Some until -> until <> 0 ->
  until + 60000 <= now ->
  getBlockTimeRemaining now userId trackers < 0.
Proof.
  intros H Hb Hnz Hlt. rewrite (getBlockTimeRemaining_set _ _ _ _ _ H Hb Hnz).
  pose proof (ceil_div_spec (until - now) 60000 ltac:(lia)). lia.
Qed.

(** C8, at the failing input: a user blocked by six messages (the last at
    1700000020000, hence blocked until 1700003620000) is looked up two
    minutes after the block has ended, before any other call has touched
    the tracker.  The user is not blocked, yet the remaining time is
    reported as -2 minutes rather than 0. *)
Theorem block_time_remaining_after_expiry :
  let trackers := run (sixMessages "628111" 1700000000000) in
  (isUserBlocked 1700003740000 "628111" trackers).1 = false
  /\ getBlockTimeRemaining 1700003740000 "628111" trackers = -2.
Proof. split; reflexivity. Qed.

(** *** Unblocking and cleaning up *)

(** [unblockUser] answers [true] exactly when a block was recorded; after
    it [isUserBlocked] answers [false] at every instant and changes
    nothing; the trackers of the other users are untouched. *)
Theorem unblockUser_clears_block userId
    (trackers : gmap string MessageTracker) :
  ((unblockUser userId trackers).1 = true
   <-> exists t, trackers !! userId = Some t
                 /\ truthy (blockedUntil t) = true)
  /\ (forall now,
        isUserBlocked now userId (unblockUser userId trackers).2
        = (false, (unblockUser userId trackers).2))
  /\ (forall other, other <> userId ->
        (unblockUser userId trackers).2 !! other = trackers !! other).
Proof.
  unfold unblockUser.
  destruct (trackers !! userId) as [t|] eqn:Ht.
  - destruct (truthy (blockedUntil t)) eqn:Hb; cbn [fst snd].
    + split; [by split; eauto|]. split.
      * intros now. eapply isUserBlocked_unset; [apply lookup_insert_eq|done].
      * intros other Hne. by rewrite lookup_insert_ne.
    + split; [split; [done|intros (t' & [= <-] & ?); congruence]|].
      split; [intros now; by eapply isUserBlocked_unset|done].
  - cbn [fst snd]. split; [split; [done|by intros (t' & ? & ?)]|].
    split; [intros now; by apply isUserBlocked_absent|done].
Qed.

Lemma cleanup_lookup now userId (trackers : gmap string MessageTracker) :
  cleanup now trackers !! userId
  = match trackers !! userId with
    | Some t => if stale now t then None else Some t
    | None => None
    end.
Proof.
  unfold cleanup. destruct (trackers !! userId) as [t|] eqn:Ht.
  - destruct (stale now t) eqn:Hs.
    + apply map_lookup_filter_None. right. intros t' Ht'. cbn.
      rewrite Ht in Ht'. injection Ht' as <-. congruence.
    + apply map_lookup_filter_Some. by split.
  - apply map_lookup_filter_None. by left.
Qed.

(** [cleanup] never deletes the tracker of a user who is blocked at that
    instant, nor one that saw a message in the last 24 hours; what it
    keeps it keeps unchanged. *)
Theorem cleanup_spares_blocked_and_recent now userId t
    (trackers : gmap string MessageTracker) :
  trackers !! userId = Some t ->
  (isUserBlocked now userId trackers).1 = true
  \/ now - lastMessageTime t <= 86400000 ->
  cleanup now trackers !! userId = Some t.
Proof.
  intros Ht Hkeep. rewrite cleanup_lookup, Ht.
  assert (Hs : stale now t = false); [|by rewrite Hs].
  unfold stale. destruct Hkeep as [Hblocked|Hrecent].
  - revert Hblocked. unfold isUserBlocked. rewrite Ht.
    destruct (truthy (blockedUntil t)); cbn; [|done].
    destruct (blockedUntil t) as [until|]; [|done].
    destruct (Z.ltb_spec now until); [|done]. intros _.
    rewrite !Z.gtb_ltb. destruct (Z.ltb_spec until now); [lia|].
    apply andb_false_r.
  - rewrite Z.gtb_ltb.
    by destruct (Z.ltb_spec 86400000 (now - lastMessageTime t)); [lia|].
Qed.

Lemma cleanup_spares_blocked_and_recent_witness :
  let trackers := run (sixMessages "628111" 1700000000000) in
  let t := mkTracker 6 1700000000000 1700000020000 (Some 1700003620000) in
  trackers !! "628111" = Some t
  /\ 1700000900000 - lastMessageTime t <= 86400000
  /\ cleanup 1700000900000 trackers !! "628111" = Some t.
Proof.
  intros trackers t.
  assert (Ht : trackers !! "628111" = Some t) by reflexivity.
  assert (Hr : 1700000900000 - lastMessageTime t <= 86400000) by (cbn; lia).
  split; [exact Ht|]. split; [exact Hr|].
  exact (cleanup_spares_blocked_and_recent 1700000900000 "628111" t trackers
           Ht (or_intror Hr)).
Defined.

(** The answer of [checkAndTrackMessage] and the tracker it leaves for the
    user depend on that user's tracker alone. *)
Lemma isUserBlocked_local now userId
    (trackers trackers' : gmap string MessageTracker) :
  trackers !! userId = trackers' !! userId ->
  (isUserBlocked now userId trackers).1 = (isUserBlocked now userId trackers').1
  /\ (isUserBlocked now userId trackers).2 !! userId
     = (isUserBlocked now userId trackers').2 !! userId.
Proof.
  intros Heq. unfold isUserBlocked. rewrite <- Heq.
  destruct (trackers !! userId) as [t|] eqn:Ht; [|cbn; by rewrite Ht].
  destruct (negb _); [cbn; by rewrite Ht|].
  destruct (blockedUntil t) as [until|]; [|cbn; by rewrite Ht].
  destruct (now <? until); [cbn; by rewrite Ht|]. cbn.
  by rewrite !lookup_insert_eq.
Qed.

Lemma checkAndTrackMessage_local now nowB userId
    (trackers trackers' : gmap string MessageTracker) :
  trackers !! userId = trackers' !! userId ->
  (checkAndTrackMessage now nowB userId trackers).1
  = (checkAndTrackMessage now nowB userId trackers').1
  /\ (checkAndTrackMessage now nowB userId trackers).2 !! userId
     = (checkAndTrackMessage now nowB userId trackers').2 !! userId.
Proof.
  intros Heq. unfold checkAndTrackMessage.
  destruct (isUserBlocked_local nowB userId _ _ Heq) as [Hb Hm].
  destruct (isUserBlocked nowB userId trackers) as [b m].
  destruct (isUserBlocked nowB userId trackers') as [b' m'].
  cbn [fst snd] in Hb, Hm. subst b'. destruct b; [by split|]. rewrite <- Hm.
  destruct (m !! userId) as [t|] eqn:Et; cbn zeta; repeat case_match;
    cbn [fst snd]; rewrite ?lookup_insert_eq; split; congruence.
Qed.

(** On a running service [cleanup] cannot be noticed by the user: a
    message checked after a [cleanup] gets the answer, and leaves the
    tracker, it would have got and left without it. *)
Theorem cleanup_invisible_to_check calls userId nowC now nowB :
  Forall clock_ok calls ->
  nowC <= now -> nowC <= nowB ->
  (checkAndTrackMessage now nowB userId (cleanup nowC (run calls))).1
  = (checkAndTrackMessage now nowB userId (run calls)).1
  /\ (checkAndTrackMessage now nowB userId (cleanup nowC (run calls))).2
       !! userId
     = (checkAndTrackMessage now nowB userId (run calls)).2 !! userId.
Proof.
  intros Hclock Hnow HnowB.
  pose proof (cleanup_lookup nowC userId (run calls)) as Hclean.
  destruct (run calls !! userId) as [t|] eqn:Ht;
    [|by apply checkAndTrackMessage_local; rewrite Hclean, Ht].
  destruct (stale nowC t) eqn:Hstale;
    [|by apply checkAndTrackMessage_local; rewrite Hclean, Ht].
  pose proof (run_ok calls Hclock _ _ Ht) as (Hc & Hf & Hb).
  rewrite (check_first _ _ _ _ Hclean). cbn [fst snd].
  rewrite lookup_insert_eq.
  unfold stale in Hstale. apply andb_true_iff in Hstale as [Hold Hfree].
  rewrite Z.gtb_ltb in Hold. apply Z.ltb_lt in Hold. constants.
  destruct (blockedUntil t) as [until|] eqn:Eb.
  - assert (until < nowC).
    { cbn in Hfree. destruct (Z.eqb_spec until 0); [lia|]. cbn in Hfree.
      rewrite Z.gtb_ltb in Hfree. by apply Z.ltb_lt in Hfree. }
    rewrite (check_after_expiry _ _ _ _ _ _ Ht Eb) by lia.
    erewrite check_new_window;
      [|apply lookup_insert_eq|done|cbn; constants; lia..].
    cbn. by rewrite lookup_insert_eq.
  - erewrite check_new_window; [|done|by rewrite Eb|constants; lia..].
    cbn. by rewrite lookup_insert_eq, Eb.
Qed.

Lemma cleanup_invisible_to_check_witness :
  let calls := sixMessages "628111" 1700000000000 in
  Forall clock_ok calls
  /\ 1700090000000 <= 1700090000001
  /\ (checkAndTrackMessage 1700090000001 1700090000001 "628111"
        (cleanup 1700090000000 (run calls))).1
     = (checkAndTrackMessage 1700090000001 1700090000001 "628111"
          (run calls)).1.
Proof.
  intros calls.
  assert (H0 : Forall clock_ok calls) by (repeat constructor; cbn; lia).
  assert (H1 : 1700090000000 <= 1700090000001) by lia.
  split; [exact H0|]. split; [exact H1|].
  exact (proj1 (cleanup_invisible_to_check calls "628111" 1700090000000
                  1700090000001 1700090000001 H0 H1 H1)).
Defined.

(** *** How long a block lasts, and who is never blocked *)

Lemma isUserBlocked_after_new_block now nowB userId later
    (trackers : gmap string MessageTracker) :
  0 <= now ->
  (isUserBlocked nowB userId trackers).1 = false ->
  isSpam (checkAndTrackMessage now nowB userId trackers).1 = true ->
  (isUserBlocked later userId
     (checkAndTrackMessage now nowB userId trackers).2).1
  = (later <? now + SPAM_BLOCK_DURATION).
Proof.
  intros Hnow. unfold checkAndTrackMessage.
  destruct (isUserBlocked nowB userId trackers) as [b m]. cbn [fst].
  intros ->. destruct (m !! userId) as [t|]; [|done].
  cbn zeta. destruct (_ <? MESSAGE_COOLDOWN); [done|].
  destruct (_ >? SPAM_TIME_WINDOW); [done|].
  destruct (_ >? SPAM_THRESHOLD); [|done]. intros _. cbn [snd].
  unfold isUserBlocked. rewrite lookup_insert_eq.
  cbn [blockedUntil truthy]. constants.
  destruct (Z.eqb_spec (now + 3600000) 0); [lia|]. cbn.
  by destruct (later <? now + 3600000).
Qed.

(** When a message of a user who was not blocked is answered with
    [isSpam], the user is blocked from then on for exactly
    [SPAM_BLOCK_DURATION]: [isUserBlocked] answers [true] at every instant
    before [now + SPAM_BLOCK_DURATION] and [false] from that instant on. *)
Theorem new_block_lasts_one_hour now nowB userId later
    (trackers : gmap string MessageTracker) :
  0 <= now ->
  (isUserBlocked nowB userId trackers).1 = false ->
  isSpam (checkAndTrackMessage now nowB userId trackers).1 = true ->
  (isUserBlocked later userId
     (checkAndTrackMessage now nowB userId trackers).2).1 = true
  <-> later < now + SPAM_BLOCK_DURATION.
Proof.
  intros Hnow Hfree Hspam.
  rewrite (isUserBlocked_after_new_block _ _ _ _ _ Hnow Hfree Hspam).
  apply Z.ltb_lt.
Qed.

Lemma new_block_lasts_one_hour_witness :
  let trackers := run (firstn 5 (sixMessages "628111" 1700000000000)) in
  0 <= 1700000020000
  /\ (isUserBlocked 1700000020000 "628111" trackers).1 = false
  /\ isSpam (checkAndTrackMessage 1700000020000 1700000020000 "628111"
               trackers).1 = true
  /\ (isUserBlocked 1700003619999 "628111"
        (checkAndTrackMessage 1700000020000 1700000020000 "628111"
           trackers).2).1 = true.
Proof.
  intros trackers.
  assert (H0 : 0 <= 1700000020000) by lia.
  assert (H1 : (isUserBlocked 1700000020000 "628111" trackers).1 = false)
    by reflexivity.
  assert (H2 : isSpam (checkAndTrackMessage 1700000020000 1700000020000
                         "628111" trackers).1 = true) by reflexivity.
  split; [exact H0|]. split; [exact H1|]. split; [exact H2|].
  refine (proj2 (new_block_lasts_one_hour 1700000020000 1700000020000
                   "628111" 1700003619999 trackers H0 H1 H2) _).
  unfold SPAM_BLOCK_DURATION. lia.
Defined.

(** A burst of messages, each less than [MESSAGE_COOLDOWN] after the last
    accepted one, is never counted: every one is told to wait and the
    trackers stay as they were, however long the burst. *)
Theorem burst_within_cooldown_not_counted times userId t
    (trackers : gmap string MessageTracker) :
  trackers !! userId = Some t ->
  truthy (blockedUntil t) = false ->
  Forall (fun now => now - lastMessageTime t < MESSAGE_COOLDOWN) times ->
  sendAll times userId trackers
  = (map (fun now =>
            mkCheck false true (MESSAGE_COOLDOWN - (now - lastMessageTime t)))
       times,
     trackers).
Proof.
  intros Ht Hb. induction times as [|now times IH]; intros Hall; [done|].
  apply Forall_cons in Hall as [Hnow Hall]. cbn [sendAll map].
  rewrite (check_cooldown _ _ _ _ _ Ht Hb Hnow). by rewrite (IH Hall).
Qed.

Lemma burst_within_cooldown_not_counted_witness :
  let trackers :=
    run [CheckAndTrackMessage 1700000000000 1700000000000 "628111"] in
  let t := mkTracker 1 1700000000000 1700000000000 None in
  trackers !! "628111" = Some t
  /\ truthy (blockedUntil t) = false
  /\ (sendAll [1700000000100; 1700000000200; 1700000002999] "628111"
        trackers).2 = trackers.
Proof.
  intros trackers t.
  assert (Ht : trackers !! "628111" = Some t) by reflexivity.
  assert (Hb : truthy (blockedUntil t) = false) by reflexivity.
  split; [exact Ht|]. split; [exact Hb|].
  refine (f_equal snd (burst_within_cooldown_not_counted
            [1700000000100; 1700000000200; 1700000002999] "628111" t trackers
            Ht Hb _)).
  repeat constructor; cbn; unfold MESSAGE_COOLDOWN; lia.
Defined.

Lemma sendAll_spaced times userId prev
    (trackers : gmap string MessageTracker) :
  trackers !! userId = Some (mkTracker 1 prev prev None) ->
  spaced prev times ->
  (sendAll times userId trackers).1 = map (fun _ => accepted_result) times
  /\ exists last,
       (sendAll times userId trackers).2 !! userId
       = Some (mkTracker 1 last last None).
Proof.
  revert prev trackers. induction times as [|now times IH];
    intros prev trackers Ht Hsp.
  - cbn. eauto.
  - destruct Hsp as [Hgap Hsp]. cbn [sendAll].
    erewrite check_new_window; [|done|done|cbn; constants; lia..].
    cbn [blockedUntil].
    destruct (IH now (<[userId := mkTracker 1 now now None]> trackers)
                ltac:(apply lookup_insert_eq) Hsp) as [Hres Hlast].
    destruct (sendAll times userId _) as [rs trackers']. cbn in *.
    split; [by rewrite Hres|done].
Qed.

(** A user who lets more than [SPAM_TIME_WINDOW] pass between any two
    messages is never blocked and never told to wait: starting without a
    tracker, every message is accepted and the counter ends at 1. *)
Theorem slow_sender_always_accepted first times userId
    (trackers : gmap string MessageTracker) :
  trackers !! userId = None ->
  spaced first times ->
  (sendAll (first :: times) userId trackers).1
  = map (fun _ => mkCheck false false 0) (first :: times)
  /\ exists last,
       (sendAll (first :: times) userId trackers).2 !! userId
       = Some (mkTracker 1 last last None).
Proof.
  intros Hnone Hsp. cbn [sendAll]. rewrite (check_first _ _ _ _ Hnone).
  destruct (sendAll_spaced times userId first
              (<[userId := mkTracker 1 first first None]> trackers)
              ltac:(apply lookup_insert_eq) Hsp) as [Hres Hlast].
  destruct (sendAll times userId _) as [rs trackers']. cbn in *.
  split; [by rewrite Hres|done].
Qed.

Lemma slow_sender_always_accepted_witness :
  (∅ : gmap string MessageTracker) !! "628111" = None
  /\ spaced 1700000000000 [1700000060001; 1700000120002]
  /\ (sendAll [1700000000000; 1700000060001; 1700000120002] "628111" ∅).1
     = [mkCheck false false 0; mkCheck false false 0; mkCheck false false 0].
Proof.
  assert (H0 : (∅ : gmap string MessageTracker) !! "628111" = None)
    by reflexivity.
  assert (H1 : spaced 1700000000000 [1700000060001; 1700000120002])
    by (cbn; unfold SPAM_TIME_WINDOW; lia).
  split; [exact H0|]. split; [exact H1|].
  exact (proj1 (slow_sender_always_accepted 1700000000000
                  [1700000060001; 1700000120002] "628111" ∅ H0 H1)).
Defined.

(** *** The spam gate of the message handler *)

Import Dispatcher.

Lemma isUserBlocked_true_inv now userId
    (trackers : gmap string MessageTracker) :
  (isUserBlocked now userId trackers).1 = true ->
  exists t until,
    trackers !! userId = Some t /\ blockedUntil t = Some until
    /\ until <> 0 /\ now < until
    /\ isUserBlocked now userId trackers = (true, trackers).
Proof.
  unfold isUserBlocked.
  destruct (trackers !! userId) as [t|]; [|done].
  destruct (blockedUntil t) as [until|] eqn:Eb; cbn; [|done].
  destruct (Z.eqb_spec until 0); cbn; [done|].
  destruct (Z.ltb_spec now until); cbn; [|done].
  intros _. by exists t, until.
Qed.

Lemma check_when_blocked now nowB userId
    (trackers : gmap string MessageTracker) :
  (isUserBlocked nowB userId trackers).1 = true ->
  checkAndTrackMessage now nowB userId trackers = (blocked_result, trackers).
Proof.
  intros (t & until & Ht & Eb & Hnz & Hlt & _)%isUserBlocked_true_inv.
  by eapply check_blocked.
Qed.

(** When every clock reading of the gate is the same instant, the fixed
    notice ("one hour") is never the verdict: a message answered with
    [isSpam] always finds the user blocked, and the notice sent is the one
    that carries the remaining minutes. *)
Theorem spamGate_never_fixed_notice now userId
    (trackers : gmap string MessageTracker) :
  0 <= now ->
  (spamGate now now now now userId trackers).1 <> NoticeFirstSpam.
Proof.
  intros Hnow. unfold spamGate.
  destruct (isUserBlocked now userId trackers).1 eqn:Hblocked.
  - rewrite (check_when_blocked _ _ _ _ Hblocked).
    apply isUserBlocked_true_inv in Hblocked
      as (t & until & _ & _ & _ & _ & ->). done.
  - pose proof (isUserBlocked_after_new_block now now userId now trackers
                  Hnow Hblocked) as Hhour.
    destruct (checkAndTrackMessage now now userId trackers) as [check m].
    cbn [fst snd] in Hhour.
    destruct (isSpam check) eqn:Hspam.
    + specialize (Hhour eq_refl).
      destruct (isUserBlocked now userId m) as [b m']. cbn [fst] in Hhour.
      subst b. constants. destruct (Z.ltb_spec now (now + 3600000)); [|lia].
      done.
    + cbn. by destruct (shouldWait check).
Qed.

Lemma spamGate_never_fixed_notice_witness :
  0 <= 1700000020000
  /\ (spamGate 1700000020000 1700000020000 1700000020000 1700000020000
        "628111" (run (firstn 5 (sixMessages "628111" 1700000000000)))).1
     <> NoticeFirstSpam.
Proof.
  assert (H0 : 0 <= 1700000020000) by lia.
  split; [exact H0|].
  exact (spamGate_never_fixed_notice 1700000020000 "628111" _ H0).
Defined.

Lemma check_last_le now nowB userId t'
    (trackers : gmap string MessageTracker) :
  (forall t, trackers !! userId = Some t -> lastMessageTime t <= now) ->
  (checkAndTrackMessage now nowB userId trackers).2 !! userId = Some t' ->
  lastMessageTime t' <= now.
Proof.
  intros Hlast.
  destruct (trackers !! userId) as [t|] eqn:Ht.
  - specialize (Hlast t eq_refl).
    unfold checkAndTrackMessage, isUserBlocked. rewrite Ht.
    repeat case_match; simplify_eq; cbn [fst snd] in *;
      rewrite ?lookup_insert_eq in *; intros; simplify_eq; cbn; try lia.
  - rewrite (check_first _ _ _ _ Ht). cbn [snd]. rewrite lookup_insert_eq.
    intros [= <-]. cbn. lia.
Qed.

(** On a running service whose clock has not gone back behind the user's
    last accepted message, and with every reading of the gate at the same
    instant, the notice of a blocked user announces between 1 and 60
    minutes. *)
Theorem spamGate_notice_minutes calls now userId minutes :
  Forall clock_ok calls ->
  0 <= now ->
  (forall t, run calls !! userId = Some t -> lastMessageTime t <= now) ->
  (spamGate now now now now userId (run calls)).1 = NoticeBlocked minutes ->
  1 <= minutes <= 60.
Proof.
  intros Hclock Hnow Hlast. unfold spamGate.
  pose proof (checkAndTrackMessage_ok now now userId (run calls) Hnow
                (run_ok calls Hclock)) as Hok.
  pose proof (fun t' => check_last_le now now userId t' (run calls) Hlast)
    as Hle.
  destruct (checkAndTrackMessage now now userId (run calls)) as [check m].
  cbn [snd] in Hok, Hle.
  destruct (isSpam check); [|by destruct (shouldWait check)].
  destruct (isUserBlocked now userId m).1 eqn:Hblocked.
  - apply isUserBlocked_true_inv in Hblocked
      as (t & until & Ht & Eb & Hnz & Hlt & ->).
    cbn. intros [= <-].
    rewrite (getBlockTimeRemaining_set _ _ _ _ _ Ht Eb Hnz).
    destruct (Hok _ _ Ht) as (_ & _ & Hb). rewrite Eb in Hb.
    specialize (Hle t Ht). constants.
    pose proof (ceil_div_spec (until - now) 60000 ltac:(lia)). lia.
  - destruct (isUserBlocked now userId m) as [b m']. cbn in Hblocked.
    subst b. cbn. by destruct (shouldWait check).
Qed.

Lemma spamGate_notice_minutes_witness :
  let calls := firstn 5 (sixMessages "628111" 1700000000000) in
  Forall clock_ok calls
  /\ 0 <= 1700000020000
  /\ (spamGate 1700000020000 1700000020000 1700000020000 1700000020000
        "628111" (run calls)).1 = NoticeBlocked 60
  /\ 1 <= 60 <= 60.
Proof.
  intros calls.
  assert (H0 : Forall clock_ok calls) by (repeat constructor; cbn; lia).
  assert (H1 : 0 <= 1700000020000) by lia.
  assert (H2 : (spamGate 1700000020000 1700000020000 1700000020000
                  1700000020000 "628111" (run calls)).1 = NoticeBlocked 60)
    by reflexivity.
  split; [exact H0|]. split; [exact H1|]. split; [exact H2|].
  refine (spamGate_notice_minutes calls 1700000020000 "628111" 60 H0 H1 _ H2).
  intros t Ht. change (Some (mkTracker 5 1700000000000 1700000016000 None)
                       = Some t) in Ht.
  injection Ht as <-. cbn. lia.
Defined.

End RateLimiter.

(** * Properties of the conversation store *)

Section ConversationStore.
Import ConversationHistoryService.

Lemma slice_last_length {A} n (xs : list A) :
  length (slice_last n xs) = Nat.min n (length xs).
Proof. unfold slice_last. rewrite length_drop. lia. Qed.

Lemma slice_last_suffix {A} n (xs : list A) : slice_last n xs `suffix_of` xs.
Proof. apply suffix_drop. Qed.

(** [addUserMessage] leaves at most [2 * MAX_MESSAGES_PER_USER] messages,
    and they are the newest ones: a suffix of the old list followed by
    the new message. *)
Lemma addUserMessage_bounded now uid text
    (conversations : gmap string Conversation) :
  exists c,
    addUserMessage now uid text conversations !! uid = Some c
    /\ (length (messages c) <= 2 * MAX_MESSAGES_PER_USER)%nat
    /\ messages c `suffix_of`
         getFullHistory uid conversations ++ [mkMessage user text now]
    /\ lastUpdated c = now.
Proof.
  unfold addUserMessage, getFullHistory.
  destruct (conversations !! uid) as [c|]; cbn [messages userId];
    (eexists; split; [apply lookup_insert_eq|]; cbn [messages lastUpdated];
     match goal with
     | |- context [Nat.ltb ?a ?b] => destruct (Nat.ltb_spec a b)
     end;
     [rewrite slice_last_length; split; [lia|]; split;
        [apply slice_last_suffix|done]
     |split; [lia|done]]).
Qed.

(** [addAssistantMessage] on an existing record appends and never trims. *)
Lemma addAssistantMessage_appends now now' uid text c
    (conversations : gmap string Conversation) :
  conversations !! uid = Some c ->
  getFullHistory uid (addAssistantMessage now now' uid text conversations)
  = messages c ++ [mkMessage assistant text now].
Proof.
  intros H. unfold addAssistantMessage, getFullHistory. rewrite H.
  by rewrite lookup_insert_eq.
Qed.

(** C1, at the failing input: the dispatcher stores each question with
    [addUserMessage] and each answer with [addAssistantMessage].  After
    eleven such exchanges of one user the record holds 21 messages, one
    more than [2 * MAX_MESSAGES_PER_USER]: the eleventh question is
    trimmed to 20, the eleventh answer is appended without trimming. *)
Theorem eleven_exchanges_store_21_messages :
  length (getFullHistory "628111" (run (exchanges "628111" 11))) = 21%nat
  /\ (2 * MAX_MESSAGES_PER_USER = 20)%nat.
Proof. split; reflexivity. Qed.

(** [getHistory] on a user without a record. *)
Lemma getHistory_no_record now uid
    (conversations : gmap string Conversation) :
  conversations !! uid = None ->
  getHistory now uid conversations = ([], conversations).
Proof. intros H. unfold getHistory. by rewrite H. Qed.

(** C5: [getHistory] for any user.  When the user's record was last updated
    more than [CONVERSATION_TIMEOUT] ago, the answer is empty and the
    record is deleted.  Otherwise (the record is younger, or there is
    none) the answer is the stored messages in their stored order, each
    reduced to its role and content, and the store is left as it was. *)
Theorem getHistory_expiry_and_order now uid
    (conversations : gmap string Conversation) :
  (forall c, conversations !! uid = Some c ->
     CONVERSATION_TIMEOUT < now - lastUpdated c ->
     getHistory now uid conversations = ([], delete uid conversations)
     /\ (getHistory now uid conversations).2 !! uid = None)
  /\ ((forall c, conversations !! uid = Some c ->
        now - lastUpdated c <= CONVERSATION_TIMEOUT) ->
      getHistory now uid conversations
      = (map (fun m => mkApiMessage (role m) (content m))
           (getFullHistory uid conversations),
         conversations)).
Proof.
  split.
  - intros c H Hold. unfold getHistory. rewrite H, Z.gtb_ltb.
    destruct (Z.ltb_spec CONVERSATION_TIMEOUT (now - lastUpdated c)); [|lia].
    split; [done|]. apply lookup_delete_eq.
  - intros Hyoung. unfold getHistory, getFullHistory.
    destruct (conversations !! uid) as [c|]; [|done].
    specialize (Hyoung c eq_refl). rewrite Z.gtb_ltb.
    by destruct (Z.ltb_spec CONVERSATION_TIMEOUT (now - lastUpdated c));
      [lia|].
Qed.

Lemma getHistory_expiry_and_order_witness :
  let store := run (exchange "628111" 0) in
  let c := mkConversation "628111"
             [mkMessage user "question" 1700000000000;
              mkMessage assistant "answer" 1700000002000] 1700000002000 in
  store !! "628111" = Some c
  /\ (getHistory 1700000003000 "628111" store).1
     = [mkApiMessage user "question"; mkApiMessage assistant "answer"]
  /\ (getHistory 1701800002001 "628111" store).1 = [].
Proof.
  intros store c.
  assert (H : store !! "628111" = Some c) by reflexivity.
  split; [exact H|].
  destruct (getHistory_expiry_and_order 1700000003000 "628111" store)
    as [_ Hlive].
  destruct (getHistory_expiry_and_order 1701800002001 "628111" store)
    as [Hdead _].
  split.
  - refine (f_equal fst (Hlive _)). intros c' Hc'.
    rewrite H in Hc'. injection Hc' as <-.
    cbn. unfold CONVERSATION_TIMEOUT. lia.
  - refine (f_equal fst (proj1 (Hdead c H _))).
    cbn. unfold CONVERSATION_TIMEOUT. lia.
Defined.

(** C9: [addAssistantMessage] for a user without a record changes
    nothing: the store it returns is the store it was given. *)
Theorem addAssistantMessage_without_record now now' uid text
    (conversations : gmap string Conversation) :
  conversations !! uid = None ->
  addAssistantMessage now now' uid text conversations = conversations.
Proof. intros H. unfold addAssistantMessage. by rewrite H. Qed.

Lemma addAssistantMessage_without_record_witness :
  (∅ : gmap string Conversation) !! "628111" = None
  /\ addAssistantMessage 1700000000000 1700000000000 "628111" "answer" ∅
     = ∅.
Proof.
  assert (H : (∅ : gmap string Conversation) !! "628111" = None)
    by reflexivity.
  split; [exact H|].
  exact (addAssistantMessage_without_record 1700000000000 1700000000000
           "628111" "answer" ∅ H).
Defined.

(** *** What a run of the store keeps *)

Lemma answersSinceQuestion_snoc uid calls c :
  answersSinceQuestion uid (calls ++ [c])
  = match c with
    | AddUserMessage _ u _ =>
        if String.eqb u uid then O else answersSinceQuestion uid calls
    | AddAssistantMessage _ _ u _ =>
        if String.eqb u uid then S (answersSinceQuestion uid calls)
        else answersSinceQuestion uid calls
    end.
Proof. unfold answersSinceQuestion. by rewrite foldl_app. Qed.

(** The bound the store does keep: after any sequence of questions and
    answers, a record holds at most [2 * MAX_MESSAGES_PER_USER] messages
    plus the answers stored for that user since the last question. *)
Theorem record_length_bound calls uid c :
  run calls !! uid = Some c ->
  (length (messages c)
   <= 2 * MAX_MESSAGES_PER_USER + answersSinceQuestion uid calls)%nat.
Proof.
  revert c. unfold run.
  induction calls as [|call calls IH] using rev_ind; intros c; [done|].
  rewrite foldl_app, answersSinceQuestion_snoc.
  destruct call as [now u text|now now' u text]; cbn [foldl exec].
  - destruct (String.eqb_spec u uid) as [->|Hne].
    + intros Hc.
      destruct (addUserMessage_bounded now uid text (foldl exec ∅ calls))
        as (c' & Hc' & Hlen & _).
      rewrite Hc in Hc'. injection Hc' as <-. lia.
    + unfold addUserMessage. rewrite lookup_insert_ne by done. apply IH.
  - unfold addAssistantMessage.
    destruct (foldl exec ∅ calls !! u) as [cu|] eqn:Hu.
    + destruct (String.eqb_spec u uid) as [->|Hne].
      * rewrite lookup_insert_eq. intros [= <-]. cbn [messages].
        rewrite length_app. cbn [length]. specialize (IH cu Hu). lia.
      * rewrite lookup_insert_ne by done. apply IH.
    + intros Hc. specialize (IH c Hc). destruct (String.eqb u uid); lia.
Qed.

Lemma record_length_bound_witness :
  let calls := exchanges "628111" 11 in
  let c := mkConversation "628111"
             (drop 1 (flat_map
                        (fun i =>
                           let t := 1700000000000 + 10000 * Z.of_nat i in
                           [mkMessage user "question" t;
                            mkMessage assistant "answer" (t + 2000)])
                        (seq 0 11)))
             1700000102000 in
  run calls !! "628111" = Some c
  /\ (length (messages c)
      <= 2 * MAX_MESSAGES_PER_USER + answersSinceQuestion "628111" calls)%nat.
Proof.
  intros calls c.
  assert (H : run calls !! "628111" = Some c) by reflexivity.
  split; [exact H|].
  exact (record_length_bound calls "628111" c H).
Defined.

(** Every record is stored under its own user id, and no stored message
    has the role [system]: only questions and answers are ever kept. *)
Theorem records_keyed_and_roles calls uid c :
  run calls !! uid = Some c ->
  userId c = uid /\ Forall (fun m => role m <> system) (messages c).
Proof.
  revert uid c. unfold run.
  induction calls as [|call calls IH] using rev_ind; intros uid c; [done|].
  rewrite foldl_app.
  destruct call as [now u text|now now' u text]; cbn [foldl exec].
  - unfold addUserMessage.
    destruct (decide (u = uid)) as [->|Hne];
      [|rewrite lookup_insert_ne by done; apply IH].
    rewrite lookup_insert_eq. intros [= <-]. cbn [userId messages].
    assert (Hall : Forall (fun m => role m <> system)
                     (messages
                        match foldl exec ∅ calls !! uid with
                        | Some c0 => c0
                        | None => mkConversation uid [] now
                        end ++ [mkMessage user text now])).
    { apply Forall_app. split; [|by repeat constructor].
      destruct (foldl exec ∅ calls !! uid) as [c0|] eqn:H0; [|done].
      by destruct (IH uid c0 H0). }
    split.
    + destruct (foldl exec ∅ calls !! uid) as [c0|] eqn:H0; [|done].
      by destruct (IH uid c0 H0).
    + destruct (Nat.ltb _ _); [|done]. unfold slice_last. by apply Forall_drop.
  - unfold addAssistantMessage.
    destruct (foldl exec ∅ calls !! u) as [cu|] eqn:Hu; [|apply IH].
    destruct (decide (u = uid)) as [->|Hne];
      [|rewrite lookup_insert_ne by done; apply IH].
    rewrite lookup_insert_eq. intros [= <-]. cbn [userId messages].
    destruct (IH uid cu Hu) as [Hid Hroles]. split; [done|].
    apply Forall_app. split; [done|by repeat constructor].
Qed.

Lemma records_keyed_and_roles_witness :
  let c := mkConversation "628111"
             [mkMessage user "question" 1700000000000;
              mkMessage assistant "answer" 1700000002000] 1700000002000 in
  run (exchange "628111" 0) !! "628111" = Some c
  /\ userId c = "628111".
Proof.
  intros c.
  assert (H : run (exchange "628111" 0) !! "628111" = Some c) by reflexivity.
  split; [exact H|].
  exact (proj1 (records_keyed_and_roles (exchange "628111" 0) "628111" c H)).
Defined.

(** *** Questions, histories and expiry *)

Lemma addUserMessage_messages now uid text
    (conversations : gmap string Conversation) :
  exists c k,
    addUserMessage now uid text conversations !! uid = Some c
    /\ messages c
       = drop k (getFullHistory uid conversations)
         ++ [mkMessage user text now]
    /\ lastUpdated c = now
    /\ (length (messages c) <= 2 * MAX_MESSAGES_PER_USER)%nat.
Proof.
  unfold addUserMessage, getFullHistory.
  set (old := messages match conversations !! uid with
                       | Some c => c
                       | None => mkConversation uid [] now
                       end).
  assert (Hold : old = match conversations !! uid with
                       | Some c => messages c
                       | None => []
                       end) by (subst old; by destruct (conversations !! uid)).
  rewrite <- Hold. clear Hold.
  destruct (Nat.ltb_spec (MAX_MESSAGES_PER_USER * 2)
              (length (old ++ [mkMessage user text now]))) as [Hlong|Hshort].
  - eexists _, (length (old ++ [mkMessage user text now])
                - MAX_MESSAGES_PER_USER * 2)%nat.
    split; [apply lookup_insert_eq|]. cbn [messages lastUpdated].
    rewrite length_app in *. cbn [length] in *.
    unfold slice_last. rewrite length_app. cbn [length].
    split; [|split; [done|]].
    + rewrite drop_app_le; [done|]. unfold MAX_MESSAGES_PER_USER in *. lia.
    + rewrite length_drop, length_app. cbn [length].
      unfold MAX_MESSAGES_PER_USER in *. lia.
  - eexists _, O. split; [apply lookup_insert_eq|]. cbn [messages lastUpdated].
    split; [done|]. split; [done|lia].
Qed.

(** The handler stores the question and reads the history in one go.  When
    the two clock readings are at most [CONVERSATION_TIMEOUT] apart, the
    history it gets ends with the question just stored, holds fewer than
    [2 * MAX_MESSAGES_PER_USER] earlier messages, the newest ones of the
    record (however long ago that record was last updated), and the read
    changes nothing. *)
Theorem question_then_history now now' uid text
    (conversations : gmap string Conversation) :
  now' - now <= CONVERSATION_TIMEOUT ->
  exists earlier,
    getHistory now' uid (addUserMessage now uid text conversations)
    = (earlier ++ [mkApiMessage user text],
       addUserMessage now uid text conversations)
    /\ (length earlier < 2 * MAX_MESSAGES_PER_USER)%nat
    /\ earlier `suffix_of` map strip (getFullHistory uid conversations).
Proof.
  intros Hgap.
  destruct (addUserMessage_messages now uid text conversations)
    as (c & k & Hc & Hmsgs & Hlast & Hlen).
  exists (map strip (drop k (getFullHistory uid conversations))).
  split; [|split].
  - unfold getHistory. rewrite Hc, Hlast, Z.gtb_ltb.
    destruct (Z.ltb_spec CONVERSATION_TIMEOUT (now' - now)); [lia|].
    by rewrite Hmsgs, map_app.
  - rewrite Hmsgs, length_app in Hlen. cbn [length] in Hlen.
    rewrite length_map. lia.
  - rewrite <- skipn_map. apply suffix_drop.
Qed.

Lemma question_then_history_witness :
  1700000000500 - 1700000000000 <= CONVERSATION_TIMEOUT
  /\ (getHistory 1700000000500 "628111"
        (addUserMessage 1700000000000 "628111" "question" ∅)).1
     = [mkApiMessage user "question"].
Proof.
  assert (H : 1700000000500 - 1700000000000 <= CONVERSATION_TIMEOUT)
    by (unfold CONVERSATION_TIMEOUT; lia).
  split; [exact H|].
  destruct (question_then_history 1700000000000 1700000000500 "628111"
              "question" ∅ H) as (earlier & Hget & _ & Hsuffix).
  apply suffix_nil_inv in Hsuffix. subst earlier.
  exact (f_equal fst Hget).
Defined.

Lemma conversations_cleanup_lookup now uid
    (conversations : gmap string Conversation) :
  cleanup now conversations !! uid
  = match conversations !! uid with
    | Some c =>
        if now - lastUpdated c >? CONVERSATION_TIMEOUT then None else Some c
    | None => None
    end.
Proof.
  unfold cleanup. destruct (conversations !! uid) as [c|] eqn:Hc.
  - destruct (now - lastUpdated c >? CONVERSATION_TIMEOUT) eqn:Hold.
    + apply map_lookup_filter_None. right. intros c' Hc'. cbn.
      rewrite Hc in Hc'. injection Hc' as <-. congruence.
    + apply map_lookup_filter_Some. by split.
  - apply map_lookup_filter_None. by left.
Qed.

(** The periodic [cleanup] cannot be noticed through [getHistory]: a
    history read after a sweep is the history that would have been read
    without it, and the user's record is in the same state afterwards. *)
Theorem cleanup_invisible_to_getHistory nowC now uid
    (conversations : gmap string Conversation) :
  nowC <= now ->
  (getHistory now uid (cleanup nowC conversations)).1
  = (getHistory now uid conversations).1
  /\ (getHistory now uid (cleanup nowC conversations)).2 !! uid
     = (getHistory now uid conversations).2 !! uid.
Proof.
  intros Hnow. unfold getHistory.
  rewrite (conversations_cleanup_lookup nowC uid conversations).
  destruct (conversations !! uid) as [c|] eqn:Hc;
    [|cbn; by rewrite conversations_cleanup_lookup, Hc].
  rewrite !Z.gtb_ltb.
  destruct (CONVERSATION_TIMEOUT <? nowC - lastUpdated c) eqn:EC;
    destruct (CONVERSATION_TIMEOUT <? now - lastUpdated c) eqn:E;
    repeat (progress (cbn [fst snd];
                      rewrite ?conversations_cleanup_lookup, ?Hc,
                        ?lookup_delete_eq, ?Z.gtb_ltb, ?EC, ?E));
    try done.
  apply Z.ltb_lt in EC. apply Z.ltb_ge in E. lia.
Qed.

Lemma cleanup_invisible_to_getHistory_witness :
  let store := run (exchange "628111" 0) in
  1701900000000 <= 1701900000001
  /\ (getHistory 1701900000001 "628111" (cleanup 1701900000000 store)).1
     = (getHistory 1701900000001 "628111" store).1.
Proof.
  intros store.
  assert (H : 1701900000000 <= 1701900000001) by lia.
  split; [exact H|].
  exact (proj1 (cleanup_invisible_to_getHistory 1701900000000 1701900000001
                  "628111" store H)).
Defined.

(** A conversation that [hasActiveConversation] reports as active is one
    whose history [getHistory] serves in full, without deleting it. *)
Theorem active_conversation_is_served now uid
    (conversations : gmap string Conversation) :
  hasActiveConversation now uid conversations = true ->
  exists c,
    conversations !! uid = Some c
    /\ getHistory now uid conversations
       = (map strip (messages c), conversations).
Proof.
  unfold hasActiveConversation, getHistory.
  destruct (conversations !! uid) as [c|]; [|done].
  intros Hactive%Z.ltb_lt. exists c. split; [done|]. rewrite Z.gtb_ltb.
  by destruct (Z.ltb_spec CONVERSATION_TIMEOUT (now - lastUpdated c)); [lia|].
Qed.

Lemma active_conversation_is_served_witness :
  let store := run (exchange "628111" 0) in
  hasActiveConversation 1700000003000 "628111" store = true
  /\ (getHistory 1700000003000 "628111" store).1
     = [mkApiMessage user "question"; mkApiMessage assistant "answer"].
Proof.
  intros store.
  assert (H : hasActiveConversation 1700000003000 "628111" store = true)
    by reflexivity.
  split; [exact H|].
  destruct (active_conversation_is_served 1700000003000 "628111" store H)
    as (c & Hc & Hget).
  change (Some (mkConversation "628111"
                  [mkMessage user "question" 1700000000000;
                   mkMessage assistant "answer" 1700000002000]
                  1700000002000) = Some c) in Hc.
  injection Hc as <-. exact (f_equal fst Hget).
Defined.

(** Exactly [CONVERSATION_TIMEOUT] after its last update a record is
    between the two tests: it is no longer reported as active, yet its
    history is still served and the record kept. *)
Theorem timeout_boundary_served_not_active now uid c
    (conversations : gmap string Conversation) :
  conversations !! uid = Some c ->
  now - lastUpdated c = CONVERSATION_TIMEOUT ->
  hasActiveConversation now uid conversations = false
  /\ getHistory now uid conversations
     = (map strip (messages c), conversations).
Proof.
  intros Hc Hgap. unfold hasActiveConversation, getHistory.
  rewrite Hc, Hgap. done.
Qed.

Lemma timeout_boundary_served_not_active_witness :
  let store := run (exchange "628111" 0) in
  let c := mkConversation "628111"
             [mkMessage user "question" 1700000000000;
              mkMessage assistant "answer" 1700000002000] 1700000002000 in
  store !! "628111" = Some c
  /\ 1700001802000 - lastUpdated c = CONVERSATION_TIMEOUT
  /\ hasActiveConversation 1700001802000 "628111" store = false
  /\ (getHistory 1700001802000 "628111" store).1
     = [mkApiMessage user "question"; mkApiMessage assistant "answer"].
Proof.
  intros store c.
  assert (Hc : store !! "628111" = Some c) by reflexivity.
  assert (Hgap : 1700001802000 - lastUpdated c = CONVERSATION_TIMEOUT)
    by reflexivity.
  split; [exact Hc|]. split; [exact Hgap|].
  destruct (timeout_boundary_served_not_active 1700001802000 "628111" c
              store Hc Hgap) as [Hactive Hget].
  split; [exact Hactive|exact (f_equal fst Hget)].
Defined.

(** The status line of [getConversationSummary], computed from whole
    seconds, agrees with [hasActiveConversation], computed from
    milliseconds. *)
Theorem summary_status_agrees now uid c
    (conversations : gmap string Conversation) :
  conversations !! uid = Some c ->
  summaryIsActive now c = hasActiveConversation now uid conversations.
Proof.
  intros Hc. unfold summaryIsActive, hasActiveConversation. rewrite Hc.
  unfold CONVERSATION_TIMEOUT. change (1800000 / 1000) with 1800.
  pose proof (Z.div_mod (now - lastUpdated c) 1000 ltac:(lia)).
  pose proof (Z.mod_pos_bound (now - lastUpdated c) 1000 ltac:(lia)).
  destruct (Z.ltb_spec ((now - lastUpdated c) / 1000) 1800),
    (Z.ltb_spec (now - lastUpdated c) 1800000); try done; lia.
Qed.

Lemma summary_status_agrees_witness :
  let store := run (exchange "628111" 0) in
  let c := mkConversation "628111"
             [mkMessage user "question" 1700000000000;
              mkMessage assistant "answer" 1700000002000] 1700000002000 in
  store !! "628111" = Some c
  /\ summaryIsActive 1700001801999 c
     = hasActiveConversation 1700001801999 "628111" store.
Proof.
  intros store c.
  assert (Hc : store !! "628111" = Some c) by reflexivity.
  split; [exact Hc|].
  exact (summary_status_agrees 1700001801999 "628111" c store Hc).
Defined.

(** [getLastMessage] after a store: the question just stored, whatever was
    trimmed; the answer just stored when the user has a record; and no
    message for a user without a record, before and after an answer. *)
Theorem getLastMessage_after_store now now' uid text
    (conversations : gmap string Conversation) :
  getLastMessage uid (addUserMessage now uid text conversations)
  = Some (mkMessage user text now)
  /\ (is_Some (conversations !! uid) ->
      getLastMessage uid
        (addAssistantMessage now now' uid text conversations)
      = Some (mkMessage assistant text now))
  /\ (conversations !! uid = None ->
      getLastMessage uid
        (addAssistantMessage now now' uid text conversations)
      = None).
Proof.
  assert (Hlast : forall (xs : list Message) x,
            (if Nat.eqb (length (xs ++ [x])) 0 then None
             else (xs ++ [x]) !! (length (xs ++ [x]) - 1)%nat) = Some x).
  { intros xs x. rewrite length_app. cbn [length].
    replace (length xs + 1 - 1)%nat with (length xs + 0)%nat by lia.
    rewrite lookup_app_r by lia.
    replace (length xs + 0 - length xs)%nat with O by lia.
    by destruct (Nat.eqb_spec (length xs + 1) 0); [lia|]. }
  split; [|split].
  - destruct (addUserMessage_messages now uid text conversations)
      as (c & k & Hc & Hmsgs & _).
    unfold getLastMessage. rewrite Hc, Hmsgs. apply Hlast.
  - intros [c Hc]. unfold getLastMessage, addAssistantMessage.
    rewrite Hc, lookup_insert_eq. cbn [messages]. apply Hlast.
  - intros Hc. unfold getLastMessage, addAssistantMessage. by rewrite !Hc.
Qed.

End ConversationStore.

(** * Properties of the durable flag *)

Section DurableFlag.
Import JSON PersistentStateService.

#[local] Arguments String.append !_ _ / : simpl nomatch.

(** *** The reader on a few texts *)

Example parse_sample :
  JSON_parse " [1, -2.5e+3, true, null, [], {}, [[0]]] "
  = Some (JArray
            [JNumber (Decimal (Pos (D1 Nil)) Nil);
             JNumber (DecimalExp (Neg (D2 Nil)) (D5 Nil) (Pos (D3 Nil)));
             JBool true; JNull; JArray []; JObject [];
             JArray [JArray [JNumber (Decimal (Pos (D0 Nil)) Nil)]]]).
Proof. reflexivity. Qed.

Example parse_rejects :
  Forall (fun text => JSON_parse text = None)
    [""; "{oops"; "[1,]"; "[1 2]"; "[]]"; "{1: 2}"; "01"; "1."; "-"; ".5";
     "1e"; "tru"; "nulll"; "True"; "{}{}"].
Proof. repeat constructor. Qed.

(** *** Reading back what [JSON.stringify] wrote *)

Lemma append_assoc (a b c : string) : (a +:+ b) +:+ c = a +:+ (b +:+ c).
Proof. induction a as [|x a IH]; simpl; [done|]. by f_equal. Qed.

Lemma snoc_append seen c rest :
  snoc seen c +:+ rest = seen +:+ String c rest.
Proof. unfold snoc. by rewrite append_assoc. Qed.

Lemma append_empty_r (a : string) : a +:+ "" = a.
Proof. induction a as [|x a IH]; simpl; [done|]. by f_equal. Qed.

(** A run of digits read inside a number. *)
Lemma lex_digits_run d rest seen toks :
  lex (NilEmpty.string_of_uint d +:+ rest) (InNumber seen) toks
  = lex rest (InNumber (seen +:+ NilEmpty.string_of_uint d)) toks.
Proof.
  revert seen. induction d; intros seen; cbn;
    rewrite ?append_empty_r, ?IHd, ?snoc_append; done.
Qed.

Lemma take_digits_string_of_uint d :
  take_digits (NilEmpty.string_of_uint d) = (d, "").
Proof. induction d; cbn; rewrite ?IHd; done. Qed.

(** The decimal digits of a positive number start with no zero. *)
Lemma integer_part_ok_to_uint p : integer_part_ok (Pos.to_uint p) = true.
Proof.
  assert (Hnorm : unorm (Pos.to_uint p) = Pos.to_uint p).
  { rewrite <- (DecimalPos.Unsigned.to_of (Pos.to_uint p)).
    by rewrite DecimalPos.Unsigned.of_to. }
  pose proof (DecimalPos.Unsigned.to_uint_nonnil p) as Hnil.
  pose proof (DecimalPos.Unsigned.to_uint_nonzero p) as Hzero.
  destruct (Pos.to_uint p) as [|u| | | | | | | | |]; try done.
  destruct u; try done. exfalso. 
  unfold unorm in Hnorm. rewrite nzhead_D0 in Hnorm.
  destruct (nzhead _) eqn:E; try discriminate.
  by apply nzhead_nonzero in E.
Qed.

Lemma number_of_string_to_int n :
  number_of_string (NilEmpty.string_of_int (Z.to_int n))
  = Some (Decimal (Z.to_int n) Nil).
Proof.
  destruct n as [|p|p]; [done| |]; unfold number_of_string; cbn.
  - pose proof (DecimalPos.Unsigned.to_uint_nonnil p) as Hnil.
    replace (match NilEmpty.string_of_uint (Pos.to_uint p) with
             | String "-"%char rest => (true, rest)
             | _ => (false, NilEmpty.string_of_uint (Pos.to_uint p))
             end)
      with (false, NilEmpty.string_of_uint (Pos.to_uint p))
      by (by destruct (Pos.to_uint p)).
    by rewrite take_digits_string_of_uint, integer_part_ok_to_uint.
  - by rewrite take_digits_string_of_uint, integer_part_ok_to_uint.
Qed.

(** An integer literal, followed by a character that cannot continue a
    number, is read as one number token. *)
Lemma lex_integer n c rest toks :
  is_number_char c = false ->
  lex (NilEmpty.string_of_int (Z.to_int n) +:+ String c rest) Idle toks
  = match step_idle c (TScalar (JNumber (Decimal (Z.to_int n) Nil)) :: toks)
    with
    | Some (mode, toks') => lex rest mode toks'
    | None => None
    end.
Proof.
  intros Hc.
  assert (Hrun : forall seen,
    lex (String c rest) (InNumber seen) toks
    = match number_of_string seen with
      | Some d =>
          match step_idle c (TScalar (JNumber d) :: toks) with
          | Some (mode, toks') => lex rest mode toks'
          | None => None
          end
      | None => None
      end).
  { intros seen. cbn. rewrite Hc. by destruct (number_of_string seen). }
  pose proof (number_of_string_to_int n) as Hnum.
  destruct n as [|p|p]; cbn [Z.to_int NilEmpty.string_of_int] in *.
  - cbn. rewrite Hc. done.
  - pose proof (DecimalPos.Unsigned.to_uint_nonnil p) as Hnil.
    destruct (Pos.to_uint p) as [|u|u|u|u|u|u|u|u|u|u] eqn:E; [done|..];
      cbn [NilEmpty.string_of_uint String.append lex step step_idle
           is_ws is_digit digit_of];
      rewrite lex_digits_run, Hrun; cbn [String.append];
      cbn [NilEmpty.string_of_uint] in Hnum; by rewrite Hnum.
  - cbn [String.append lex step step_idle is_ws is_digit digit_of].
    rewrite lex_digits_run, Hrun. cbn [String.append]. by rewrite Hnum.
Qed.

(** One escaped character, read back inside a string. *)
Lemma lex_escape c rest seen toks :
  lex (escape c +:+ rest) (InString seen) toks
  = lex rest (InString (snoc seen c)) toks.
Proof.
  destruct c as [[] [] [] [] [] [] [] []]; try reflexivity.
Qed.

Lemma lex_escape_all s rest seen toks :
  lex (escape_all s +:+ String "034" rest) (InString seen) toks
  = lex rest Idle (TScalar (JString (seen +:+ s)) :: toks).
Proof.
  revert seen. induction s as [|c s IH]; intros seen.
  - cbn. by rewrite append_empty_r.
  - cbn [escape_all]. rewrite append_assoc, lex_escape, IH.
    by rewrite snoc_append.
Qed.

(** A quoted string is read back as the string it quotes. *)
Lemma lex_quote s rest toks :
  lex (quote s +:+ rest) Idle toks
  = lex rest Idle (TScalar (JString s) :: toks).
Proof.
  unfold quote. cbn [String.append lex step step_idle is_ws].
  rewrite append_assoc. cbn [String.append]. apply lex_escape_all.
Qed.

(** What [saveState] writes for an [AppState] is read back by
    [JSON.parse] as the same object. *)
Lemma parse_stringify_state st :
  JSON_parse (JSON_stringify (toJson st)) = Some (toJson st).
Proof.
  destruct st as [enabled stamp name].
  unfold JSON_parse, JSON_stringify, toJson.
  destruct enabled, name as [name|];
    repeat first
      [ rewrite lex_quote
      | rewrite lex_integer by reflexivity
      | rewrite append_assoc
      | rewrite append_empty_r
      | progress cbn [stringify string_of_decimal aiEnabled lastUpdated
                      updatedBy newline spaces Nat.add String.append
                      lex step step_idle finish is_ws is_digit digit_of
                      is_number_char orb word_of_string String.eqb
                      Ascii.eqb Bool.eqb parse_tokens shift complete
                      snoc rev rev_append app]
      | match goal with
        | |- context [is_lower ?c] =>
            let b := eval vm_compute in (is_lower c) in
            change (is_lower c) with b
        end ];
    reflexivity.
Qed.

(** *** Saving and loading *)

(** On a disk that can be written, [saveState] leaves the text of the
    state in the file. *)
Lemma saveState_writes state disk :
  canWrite disk = true ->
  saveState state disk
  = mkDisk (canRead disk) true true (Some (JSON_stringify state)).
Proof.
  intros Hw. unfold saveState, ensureDir, mkdirSync, writeFileSync.
  destruct disk as [r w dir f]. cbn in *. subst w. by destruct dir.
Qed.

(** On a disk that cannot be written, [saveState] changes nothing. *)
Lemma saveState_read_only state disk :
  canWrite disk = false -> saveState state disk = disk.
Proof.
  intros Hw. unfold saveState, ensureDir, mkdirSync, writeFileSync.
  rewrite Hw. destruct (dirExists disk); [|done]. by rewrite Hw.
Qed.

Lemma set_then_load enabled name now t0 disk :
  canWrite disk = true -> canRead disk = true ->
  (loadState t0 (setAIStatus enabled name now disk).2).1
  = toJson (mkAppState enabled now name).
Proof.
  intros Hw Hr. unfold setAIStatus. cbn [snd].
  rewrite (saveState_writes _ _ Hw), Hr.
  unfold loadState, ensureDir, readFileSync. cbn [dirExists file canRead].
  by rewrite parse_stringify_state.
Qed.

(** C6: on a disk the process can write and read,
    [setAIStatus(false, "admin1")] followed by [loadState()] in a fresh
    process (whose default state was built at [t0]) returns the state
    that was set: [aiEnabled] is [false], [updatedBy] is ["admin1"],
    [lastUpdated] is the instant of the call. *)
Theorem set_false_admin1_then_load now t0 disk :
  canWrite disk = true -> canRead disk = true ->
  let loaded :=
    (loadState t0 (setAIStatus false (Some "admin1") now disk).2).1 in
  property "aiEnabled" loaded = Some (JBool false)
  /\ property "updatedBy" loaded = Some (JString "admin1")
  /\ loaded = toJson (mkAppState false now (Some "admin1")).
Proof.
  intros Hw Hr loaded. subst loaded. by rewrite set_then_load.
Qed.

Lemma set_false_admin1_then_load_witness :
  let disk := mkDisk true true false None in
  canWrite disk = true /\ canRead disk = true
  /\ property "aiEnabled"
       (loadState 1700000100000
          (setAIStatus false (Some "admin1") 1700000000000 disk).2).1
     = Some (JBool false).
Proof.
  intros disk.
  assert (Hw : canWrite disk = true) by reflexivity.
  assert (Hr : canRead disk = true) by reflexivity.
  split; [exact Hw|]. split; [exact Hr|].
  exact (proj1 (set_false_admin1_then_load 1700000000000 1700000100000
                  disk Hw Hr)).
Defined.

(** C7 as stated fails on a malformed file: [loadState] answers with the
    default, but the file keeps its malformed text; the default is not
    written. *)
Lemma load_malformed_not_written_back :
  let disk := mkDisk true true true (Some "{oops") in
  JSON_parse "{oops" = None
  /\ (loadState 1700000000000 disk).1 = toJson (DEFAULT_STATE 1700000000000)
  /\ file (loadState 1700000000000 disk).2
     <> Some (JSON_stringify (toJson (DEFAULT_STATE 1700000000000))).
Proof. by repeat split. Qed.

(** C7, amended: when the state file is absent, or present with a text
    that [JSON.parse] rejects, [loadState] returns the built-in default,
    whose [aiEnabled] is [true].  When the file is absent and the disk
    can be written, the default is also written to the file.  When the
    file is present, its text is left as it is. *)
Theorem load_absent_or_malformed t0 disk :
  (file disk = None
   \/ exists text, file disk = Some text /\ JSON_parse text = None) ->
  (loadState t0 disk).1 = toJson (DEFAULT_STATE t0)
  /\ property "aiEnabled" (loadState t0 disk).1 = Some (JBool true)
  /\ (file disk = None -> canWrite disk = true ->
      file (loadState t0 disk).2
      = Some (JSON_stringify (toJson (DEFAULT_STATE t0))))
  /\ (forall text, file disk = Some text ->
      file (loadState t0 disk).2 = Some text).
Proof.
  intros Hfile.
  assert (Hdefault : (loadState t0 disk).1 = toJson (DEFAULT_STATE t0)).
  { unfold loadState, ensureDir, mkdirSync, readFileSync.
    destruct disk as [r w dir f]. cbn in *.
    destruct Hfile as [->|(text & -> & Hbad)].
    - by destruct dir, w.
    - destruct dir, w, r; cbn; rewrite ?Hbad; done. }
  split; [exact Hdefault|]. split; [by rewrite Hdefault|]. split.
  - intros Hnone Hw. unfold loadState, ensureDir, mkdirSync.
    destruct disk as [r w dir f]. cbn in *. subst f w.
    by destruct dir.
  - intros text Htext. unfold loadState, ensureDir, mkdirSync, readFileSync.
    destruct disk as [r w dir f]. cbn in *. subst f.
    destruct dir, w, r; cbn; try done;
      destruct (JSON_parse text) as [[]|]; done.
Qed.

Lemma load_absent_or_malformed_witness :
  let absent := mkDisk true true false None in
  let malformed := mkDisk true true true (Some "{oops") in
  JSON_parse "{oops" = None
  /\ (loadState 1700000000000 absent).1
     = toJson (DEFAULT_STATE 1700000000000)
  /\ (loadState 1700000000000 malformed).1
     = toJson (DEFAULT_STATE 1700000000000)
  /\ file (loadState 1700000000000 malformed).2 = Some "{oops".
Proof.
  intros absent malformed.
  assert (Hbad : JSON_parse "{oops" = None) by reflexivity.
  assert (Ha : file absent = None
               \/ exists text,
                    file absent = Some text /\ JSON_parse text = None)
    by (by left).
  assert (Hm : file malformed = None
               \/ exists text,
                    file malformed = Some text /\ JSON_parse text = None)
    by (right; by exists "{oops").
  split; [exact Hbad|].
  split; [exact (proj1 (load_absent_or_malformed 1700000000000 absent Ha))|].
  destruct (load_absent_or_malformed 1700000000000 malformed Hm)
    as (Hdef & _ & _ & Hkeep).
  split; [exact Hdef|]. exact (Hkeep "{oops" eq_refl).
Defined.

(** *** More on saving and loading *)

Lemma load_after_save st t0 disk :
  canWrite disk = true -> canRead disk = true ->
  loadState t0 (saveState (toJson st) disk)
  = (toJson st, saveState (toJson st) disk).
Proof.
  intros Hw Hr. rewrite (saveState_writes _ _ Hw), Hr.
  unfold loadState, ensureDir, readFileSync. cbn [dirExists file canRead].
  by rewrite parse_stringify_state.
Qed.

(** Whatever is set survives a restart: for every flag, every instant and
    every updater name (or none), on a disk that can be written and read,
    [loadState] after [setAIStatus] returns the state that was set and
    leaves the disk as [setAIStatus] left it. *)
Theorem set_any_then_load enabled name now t0 disk :
  canWrite disk = true -> canRead disk = true ->
  loadState t0 (setAIStatus enabled name now disk).2
  = (toJson (mkAppState enabled now name),
     (setAIStatus enabled name now disk).2)
  /\ getAIStatus (loadState t0 (setAIStatus enabled name now disk).2).1
     = Some (JBool enabled)
  /\ property "updatedBy"
       (loadState t0 (setAIStatus enabled name now disk).2).1
     = JString <$> name.
Proof.
  intros Hw Hr. unfold setAIStatus. cbn [snd].
  rewrite (load_after_save _ _ _ Hw Hr). cbn [fst].
  split; [done|]. by destruct name.
Qed.

Lemma set_any_then_load_witness :
  let disk := mkDisk true true true (Some "{oops") in
  canWrite disk = true /\ canRead disk = true
  /\ getAIStatus
       (loadState 1700000100000
          (setAIStatus true None 1700000000000 disk).2).1
     = Some (JBool true).
Proof.
  intros disk.
  assert (Hw : canWrite disk = true) by reflexivity.
  assert (Hr : canRead disk = true) by reflexivity.
  split; [exact Hw|]. split; [exact Hr|].
  exact (proj1 (proj2 (set_any_then_load true None 1700000000000
                         1700000100000 disk Hw Hr))).
Defined.

(** On a disk that cannot be written, [setAIStatus] still changes the
    state in memory, and the disk stays as it was: the change is lost at
    the next start. *)
Theorem set_on_read_only_disk enabled name now t0 disk :
  canWrite disk = false ->
  setAIStatus enabled name now disk
  = (toJson (mkAppState enabled now name), disk)
  /\ loadState t0 (setAIStatus enabled name now disk).2 = loadState t0 disk.
Proof.
  intros Hw. unfold setAIStatus. by rewrite (saveState_read_only _ _ Hw).
Qed.

Lemma set_on_read_only_disk_witness :
  let disk := mkDisk true false true None in
  canWrite disk = false
  /\ (setAIStatus false (Some "admin1") 1700000000000 disk).2 = disk.
Proof.
  intros disk.
  assert (Hw : canWrite disk = false) by reflexivity.
  split; [exact Hw|].
  exact (f_equal snd (proj1 (set_on_read_only_disk false (Some "admin1")
                               1700000000000 0 disk Hw))).
Defined.

(** [loadState] changes the disk at most once: after one load, a later
    load (of a later process, with a later default) leaves the disk as it
    finds it. *)
Theorem load_settles_disk t0 t1 disk :
  (loadState t1 (loadState t0 disk).2).2 = (loadState t0 disk).2.
Proof.
  unfold loadState, saveState, ensureDir, mkdirSync, writeFileSync,
    readFileSync.
  destruct disk as [r w dir [text|]]; cbn [canRead canWrite dirExists file].
  - destruct dir, w, r; cbn [canRead canWrite dirExists file andb fst snd];
      try done;
      destruct (JSON_parse text) as [[]|];
      cbn [canRead canWrite dirExists file andb fst snd];
      rewrite ?Tauto.if_same; try done;
      destruct (JSON_parse text) as [[]|]; done.
  - destruct dir, w; cbn [canRead canWrite dirExists file andb fst snd];
      try done;
      destruct r; cbn [canRead canWrite dirExists file andb fst snd];
      rewrite ?parse_stringify_state; done.
Qed.

(** The default written by the first start on an empty disk is what every
    later start reads. *)
Theorem first_default_is_kept t0 t1 disk :
  file disk = None -> canWrite disk = true -> canRead disk = true ->
  (loadState t1 (loadState t0 disk).2).1 = toJson (DEFAULT_STATE t0).
Proof.
  intros Hf Hw Hr.
  assert (Hfirst : (loadState t0 disk).2
                   = saveState (toJson (DEFAULT_STATE t0)) disk).
  { unfold loadState, saveState, ensureDir, mkdirSync, writeFileSync.
    destruct disk as [r w dir f]. cbn in *. subst. by destruct dir. }
  by rewrite Hfirst, (load_after_save _ _ _ Hw Hr).
Qed.

Lemma first_default_is_kept_witness :
  let disk := mkDisk true true false None in
  file disk = None /\ canWrite disk = true /\ canRead disk = true
  /\ (loadState 1700000100000 (loadState 1700000000000 disk).2).1
     = toJson (DEFAULT_STATE 1700000000000).
Proof.
  intros disk.
  assert (Hf : file disk = None) by reflexivity.
  assert (Hw : canWrite disk = true) by reflexivity.
  assert (Hr : canRead disk = true) by reflexivity.
  split; [exact Hf|]. split; [exact Hw|]. split; [exact Hr|].
  exact (first_default_is_kept 1700000000000 1700000100000 disk Hf Hw Hr).
Defined.

(** [reset] makes the default durable again: on a disk that can be written
    and read, whatever the file held, a load after [reset] returns the
    default, whose [aiEnabled] is [true]. *)
Theorem reset_then_load t0 t1 disk :
  canWrite disk = true -> canRead disk = true ->
  (loadState t1 (reset t0 disk).2).1 = toJson (DEFAULT_STATE t0)
  /\ getAIStatus (loadState t1 (reset t0 disk).2).1 = Some (JBool true).
Proof.
  intros Hw Hr. unfold reset. cbn [snd].
  by rewrite (load_after_save _ _ _ Hw Hr).
Qed.

Lemma reset_then_load_witness :
  let disk :=
    (setAIStatus false (Some "admin1") 1700000000000
       (mkDisk true true false None)).2 in
  canWrite disk = true /\ canRead disk = true
  /\ getAIStatus (loadState 1700000200000 (reset 1700000100000 disk).2).1
     = Some (JBool true).
Proof.
  intros disk.
  assert (Hw : canWrite disk = true) by reflexivity.
  assert (Hr : canRead disk = true) by reflexivity.
  split; [exact Hw|]. split; [exact Hr|].
  exact (proj2 (reset_then_load 1700000100000 1700000200000 disk Hw Hr)).
Defined.

(** [loadState] never returns [null], whatever the disk holds: reading
    [state.aiEnabled] afterwards cannot throw. *)
Theorem loadState_never_null t0 disk : (loadState t0 disk).1 <> JNull.
Proof.
  unfold loadState. destruct (ensureDir disk) as [disk1|]; [|done].
  destruct (file disk1); [|done].
  destruct (readFileSync disk1) as [text|]; [|done].
  by destruct (JSON_parse text) as [[]|].
Qed.

End DurableFlag.


(** * Properties of the chunked delivery *)

Section ChunkedDelivery.
Import RagBot.

#[local] Arguments String.append !_ _ / : simpl nomatch.










End ChunkedDelivery.
